(** * Cars.com crawling utilities: a shallow embedding of [src/utility.py]

    The Python module is embedded function by function.  Text is modelled
    as [string] over the ASCII range, dictionaries as [gmap string _],
    the set of brands as [gset string], and every effect of the module
    (files, standard input and output, the random source, exceptions and
    [sys.exit]) is threaded explicitly through a [world].

    The file has the embedding first, then the notions the properties are
    stated with, then the properties: text, file names, writing the table,
    building it from the nested dataset, loading it, the random source,
    the quiz, whole sessions, and all of it on concrete inputs. *)

From Stdlib Require Import ZArith Ascii.
From Stdlib Require String.
From stdpp Require Import base option list gmap sets strings pretty.

(** ** Python text primitives *)

Module PyStr.

(** [str.isspace] restricted to the ASCII range: TAB, LF, VT, FF, CR,
    the four separators 0x1c-0x1f and the blank. *)
Definition is_space (c : ascii) : bool :=
  let n := nat_of_ascii c in
  ((9 <=? n)%nat && (n <=? 13)%nat) || ((28 <=? n)%nat && (n <=? 32)%nat).

(** [str.upper] on one ASCII character. *)
Definition upper_char (c : ascii) : ascii :=
  let n := nat_of_ascii c in
  if ((97 <=? n)%nat && (n <=? 122)%nat) then ascii_of_nat (n - 32) else c.

Fixpoint upper (s : string) : string :=
  match s with
  | EmptyString => EmptyString
  | String c s' => String (upper_char c) (upper s')
  end.

Fixpoint lstrip (s : string) : string :=
  match s with
  | EmptyString => EmptyString
  | String c s' => if is_space c then lstrip s' else s
  end.

Fixpoint rstrip (s : string) : string :=
  match s with
  | EmptyString => EmptyString
  | String c s' =>
      match rstrip s' with
      | EmptyString => if is_space c then EmptyString else String c EmptyString
      | r => String c r
      end
  end.

(** [s.strip()] *)
Definition strip (s : string) : string := rstrip (lstrip s).

(** every character is white space ([s.strip() == ''], see [strip_blank]) *)
Fixpoint blank (s : string) : bool :=
  match s with
  | EmptyString => true
  | String c s' => is_space c && blank s'
  end.

(** [s[0]]: the first character, when there is one *)
Definition head (s : string) : option ascii :=
  match s with
  | EmptyString => None
  | String c _ => Some c
  end.

(** [s[1:]] *)
Definition tail (s : string) : string :=
  match s with
  | EmptyString => EmptyString
  | String _ s' => s'
  end.

(** [c in s] for a one-character [c] *)
Fixpoint has_char (c : ascii) (s : string) : bool :=
  match s with
  | EmptyString => false
  | String d s' => if decide (d = c) then true else has_char c s'
  end.

(** [needle in hay]: substring test, as Python's [in] on two strings *)
Fixpoint contains (hay needle : string) : bool :=
  String.prefix needle hay ||
  match hay with
  | EmptyString => false
  | String _ hay' => contains hay' needle
  end.

(** [s.rfind(c)]: index of the last occurrence, [-1] when there is none *)
Fixpoint rfind (c : ascii) (s : string) : Z :=
  match s with
  | EmptyString => (-1)%Z
  | String d s' =>
      let r := rfind c s' in
      if (0 <=? r)%Z then (r + 1)%Z
      else if decide (d = c) then 0%Z else (-1)%Z
  end.

(** [s[start:stop]] with Python's treatment of negative and
    out-of-range bounds. *)
Definition slice (s : string) (start stop : Z) : string :=
  let n := Z.of_nat (String.length s) in
  let adj i := if (i <? 0)%Z then Z.max (i + n) 0 else Z.min i n in
  let a := adj start in
  let b := adj stop in
  String.substring (Z.to_nat a) (Z.to_nat (b - a)) s.

(** [s.split(sep)] for a one-character separator *)
Fixpoint split (sep : ascii) (s : string) : list string :=
  match s with
  | EmptyString => [EmptyString]
  | String c s' =>
      if decide (c = sep) then EmptyString :: split sep s'
      else match split sep s' with
           | h :: t => String c h :: t
           | [] => [String c EmptyString]
           end
  end.

(** [s[-1]] of a non-empty string, [s[0]] likewise via [head] *)
Fixpoint last_char (s : string) : option ascii :=
  match s with
  | EmptyString => None
  | String c EmptyString => Some c
  | String _ s' => last_char s'
  end.

Definition of_char (c : ascii) : string := String c EmptyString.

(** the characters of a string, each as a one-character string, as
    iterating over a [str] yields them *)
Fixpoint chars (s : string) : list string :=
  match s with
  | EmptyString => []
  | String c s' => of_char c :: chars s'
  end.

Definition newline : string := of_char (ascii_of_nat 10).

End PyStr.


(** ** The data the module handles *)

(** One model object of the nested dataset: keys [nm] and [id]. *)
Record model_entry := { md_nm : string; md_id : string }.

(** One maker object of the nested dataset: keys [nm], [id] and [md]. *)
Record maker_entry := { mk_nm : string; mk_id : string; mk_md : list model_entry }.

(** A file is either a comma-separated table, kept as the field names and
    the row dictionaries that [csv.DictWriter] wrote and [csv.DictReader]
    yields, or a JSON document, kept as the sequence under its key [all]. *)
Inductive file :=
  | CsvFile (fieldnames : list string) (rows : list (gmap string string))
  | JsonFile (all : list maker_entry).

(** The exceptions the module can meet.  [FileNotFoundError] is a subclass
    of [OSError]. *)
Inductive exn :=
  | IndexError
  | ValueError
  | KeyError (key : string)
  | EOFError
  | OSError
  | FileNotFoundError.

Definition is_OSError (e : exn) : bool :=
  match e with
  | OSError | FileNotFoundError => true
  | _ => false
  end.

(** What a call ends with: a value, an uncaught exception, or [sys.exit]. *)
Inductive outcome (A : Type) :=
  | Ret (a : A)
  | Raise (e : exn)
  | SysExit (status : Z).
Arguments Ret {A} a.
Arguments Raise {A} e.
Arguments SysExit {A} status.

(** What a run leaves behind, in order.  [EvPrint], [EvRemove] and [EvOpenW]
    are the effects on the terminal and the file system.  [EvDraw] and
    [EvAnswer] only record the locals of a quiz round for the statements
    below: [EvDraw] the values of [model], [brand], the list returned by
    [random.sample] and [choices] after the shuffle; [EvAnswer] the values
    of [d], [brand] and [user_choice] when the answer is judged. *)
Inductive event :=
  | EvPrint (text : string)
  | EvRemove (path : string)
  | EvOpenW (path : string)
  | EvDraw (model brand : string) (sample choices : list string)
  | EvAnswer (d : list (string * string)) (brand user_choice : string).

(** The world a call runs in: the files, the paths [os.remove] refuses,
    the directory of the module ([__file__]), the lines waiting on
    standard input, the numbers the random source will deliver, and the
    events so far. *)
Record world := World {
  files : gmap string file;
  locked : gset string;
  module_dir : string;
  stdin : list string;
  rng : list nat;
  trace : list event
}.

Definition set_files (f : gmap string file) (w : world) : world :=
  World f (locked w) (module_dir w) (stdin w) (rng w) (trace w).
Definition set_stdin (l : list string) (w : world) : world :=
  World (files w) (locked w) (module_dir w) l (rng w) (trace w).
Definition set_rng (g : list nat) (w : world) : world :=
  World (files w) (locked w) (module_dir w) (stdin w) g (trace w).
Definition log (e : event) (w : world) : world :=
  World (files w) (locked w) (module_dir w) (stdin w) (rng w) (trace w ++ [e]).

(** ** A state and exception monad over the world *)

Definition M (A : Type) : Type := world → outcome A * world.

Global Instance M_ret : MRet M := λ A a w, (Ret a, w).
Global Instance M_bind : MBind M := λ A B k m w,
  match m w with
  | (Ret a, w') => k a w'
  | (Raise e, w') => (Raise e, w')
  | (SysExit n, w') => (SysExit n, w')
  end.

Definition raise {A} (e : exn) : M A := λ w, (Raise e, w).
Definition sys_exit {A} (status : Z) : M A := λ w, (SysExit status, w).
Definition emit (e : event) : M unit := λ w, (Ret tt, log e w).

(** [try: body except <catches>: handler] *)
Definition try_except {A} (body : M A) (catches : exn → bool) (handler : M A) : M A :=
  λ w, match body w with
       | (Raise e, w') => if catches e then handler w' else (Raise e, w')
       | r => r
       end.

(** [for x in l: body x] *)
Fixpoint for_each {A} (l : list A) (body : A → M unit) : M unit :=
  match l with
  | [] => mret tt
  | x :: l' => body x ;; for_each l' body
  end.

(** ** Built-ins and library calls *)

(** [print(text, end=end_)] *)
Definition print_end (text end_ : string) : M unit := emit (EvPrint (text +:+ end_)).
Definition print (text : string) : M unit := print_end text PyStr.newline.

(** [input(prompt)]: writes the prompt, then takes the next line. *)
Definition input (prompt : string) : M string := λ w,
  let w := log (EvPrint prompt) w in
  match stdin w with
  | [] => (Raise EOFError, w)
  | line :: rest => (Ret line, set_stdin rest w)
  end.

(** [s[i]] for [i] one of [0] and [-1] *)
Definition str_first (s : string) : M string :=
  match PyStr.head s with
  | Some c => mret (PyStr.of_char c)
  | None => raise IndexError
  end.
Definition str_last (s : string) : M string :=
  match PyStr.last_char s with
  | Some c => mret (PyStr.of_char c)
  | None => raise IndexError
  end.

(** [d[key]] on a dictionary *)
Definition getitem (d : gmap string string) (key : string) : M string :=
  match d !! key with
  | Some v => mret v
  | None => raise (KeyError key)
  end.

(** [os.path.join(a, b)] for a relative [b] *)
Definition os_path_join (a b : string) : string :=
  match PyStr.last_char a with
  | None => b
  | Some c => if decide (c = "/"%char) then a +:+ b else a +:+ "/" +:+ b
  end.

Definition os_path_exists (path : string) : M bool := λ w,
  (Ret (bool_decide (is_Some (files w !! path))), w).

Definition os_remove (path : string) : M unit := λ w,
  match files w !! path with
  | None => (Raise FileNotFoundError, w)
  | Some _ =>
      if decide (path ∈ locked w) then (Raise OSError, w)
      else (Ret tt, log (EvRemove path) (set_files (delete path (files w)) w))
  end.

(** [open(path, 'w')]: the file is created, or emptied. *)
Definition open_w (path : string) : M unit := λ w,
  (Ret tt, log (EvOpenW path) (set_files (<[path := CsvFile [] []]> (files w)) w)).

(** [csv.DictWriter(f, fieldnames).writeheader()] *)
Definition writeheader (path : string) (fieldnames : list string) : M unit := λ w,
  (Ret tt, set_files (<[path := CsvFile fieldnames []]> (files w)) w).

(** [writer.writerow(row)] *)
Definition writerow (path : string) (row : gmap string string) : M unit := λ w,
  match files w !! path with
  | Some (CsvFile h rows) =>
      (Ret tt, set_files (<[path := CsvFile h (rows ++ [row])]> (files w)) w)
  | _ => (Ret tt, w)
  end.

(** [list(csv.DictReader(open(path, 'r')))].  A JSON document has no
    column [maker]. *)
Definition csv_read (path : string) : M (list (gmap string string)) := λ w,
  match files w !! path with
  | Some (CsvFile _ rows) => (Ret rows, w)
  | Some (JsonFile _) => (Raise (KeyError "maker"), w)
  | None => (Raise FileNotFoundError, w)
  end.

(** [json.load(open(path))['all']].  [json.JSONDecodeError] is a
    [ValueError]. *)
Definition json_load_all (path : string) : M (list maker_entry) := λ w,
  match files w !! path with
  | Some (JsonFile all) => (Ret all, w)
  | Some (CsvFile _ _) => (Raise ValueError, w)
  | None => (Raise FileNotFoundError, w)
  end.

(** *** The module [random]

    The random source is the list [rng] of the world: each call of
    [randbelow n] takes its next number, reduced below [n], and [0] once
    the list is used up.  [choice], [sample] and [shuffle] follow the
    library: [sample] selects from a pool that shrinks by one each turn,
    which is what CPython does for small populations (for large ones it
    rejects repeated positions instead, to the same effect: [k] members
    from distinct positions).  A set is passed to [sample] as the sequence
    of its members, as the Python versions that accept a set there do. *)
Module Random.

Definition randbelow (n : nat) : M nat := λ w,
  match rng w with
  | [] => (Ret 0, w)
  | r :: g => (Ret (r mod n), set_rng g w)
  end.

(** [random.choice(seq)] *)
Definition choice {A} `{Inhabited A} (seq : list A) : M A :=
  match seq with
  | [] => raise IndexError
  | _ => i ← randbelow (length seq); mret (seq !!! i)
  end.

(** the selection loop of [random.sample]: [result[i] = pool[j]] and
    [pool[j] = pool[n-i-1]], the pool shrinking by one each turn *)
Fixpoint sample_loop {A} `{Inhabited A} (k : nat) (pool : list A) : M (list A) :=
  match k with
  | 0 => mret []
  | S k' =>
      j ← randbelow (length pool);
      let x := pool !!! j in
      let pool' := take (length pool - 1) (<[j := pool !!! (length pool - 1)]> pool) in
      result ← sample_loop k' pool';
      mret (x :: result)
  end.

(** [random.sample(population, k)] *)
Definition sample {A} `{Inhabited A} (population : list A) (k : nat) : M (list A) :=
  if decide (k ≤ length population) then sample_loop k population
  else raise ValueError.

(** [x[i], x[j] = x[j], x[i]] *)
Definition swap {A} `{Inhabited A} (i j : nat) (x : list A) : list A :=
  let xi := x !!! i in
  let xj := x !!! j in
  <[j := xi]> (<[i := xj]> x).

(** the loop of [random.shuffle]: [i] runs from [len(x)-1] down to [1] *)
Fixpoint shuffle_loop {A} `{Inhabited A} (i : nat) (x : list A) : M (list A) :=
  match i with
  | 0 => mret x
  | S i' =>
      j ← randbelow (S i);
      shuffle_loop i' (swap i j x)
  end.

(** [random.shuffle(x)]: the model returns the list the call leaves in [x] *)
Definition shuffle {A} `{Inhabited A} (x : list A) : M (list A) :=
  shuffle_loop (length x - 1) x.

End Random.

(** *** [collections.OrderedDict] as an ordered association list *)
Module ODict.

Fixpoint set (key value : string) (d : list (string * string)) : list (string * string) :=
  match d with
  | [] => [(key, value)]
  | (k, v) :: d' => if decide (k = key) then (k, value) :: d' else (k, v) :: set key value d'
  end.

Definition of_pairs (l : list (string * string)) : list (string * string) :=
  foldl (λ d kv, set kv.1 kv.2 d) [] l.

Fixpoint get (d : list (string * string)) (key : string) : option string :=
  match d with
  | [] => None
  | (k, v) :: d' => if decide (k = key) then Some v else get d' key
  end.

End ODict.

(** ** The functions of [utility.py] *)

(** [extract_info_from_csvfilename(csv_name)].  The unpacking
    [maker, model, *_, condition = ...] needs three segments at least. *)
Definition extract_info_from_csvfilename (csv_name : string)
  : outcome (gmap string string) :=
  let csv_name :=
    if PyStr.has_char "/" csv_name
    then PyStr.slice csv_name (PyStr.rfind "/" csv_name + 1) (PyStr.rfind "." csv_name)
    else csv_name in
  match PyStr.split "-" csv_name with
  | maker :: model :: rest =>
      match last rest with
      | Some condition =>
          let res := [maker; model; condition] in
          let car_info : gmap string string :=
            list_to_map (zip ["maker"; "model"; "condition"] (PyStr.upper <$> res)) in
          Ret car_info
      | None => Raise ValueError
      end
  | _ => Raise ValueError
  end.

(** [write_cars_to_csv(csv_name, csv_header, csv_rows)] *)
Definition write_cars_to_csv (csv_name : string) (csv_header : list string)
    (csv_rows : list (gmap string string)) : M unit :=
  found ← os_path_exists csv_name;
  (if found : bool then
     try_except
       (os_remove csv_name;;
        print ("delete previous " +:+ csv_name))
       is_OSError
       (print ("error in deleting " +:+ csv_name);;
        sys_exit 1)
   else mret tt);;
  open_w csv_name;;
  writeheader csv_name csv_header;;
  for_each csv_rows (λ row, writerow csv_name row);;
  print ("Writing " +:+ pretty (length csv_rows) +:+ " cars information to " +:+ csv_name).

(** The inner loop of [extract_maker_model_codes]: [car_dict] is the one
    dictionary the loops keep overwriting, and each row appended is a
    copy of it. *)
Fixpoint models_loop (models : list model_entry)
    (car_dict : gmap string string) (csv_rows : list (gmap string string))
  : M (gmap string string * list (gmap string string)) :=
  match models with
  | [] => mret (car_dict, csv_rows)
  | model :: models' =>
      let model_name := PyStr.strip (md_nm model) in
      c ← str_first model_name;
      let model_name :=
        if decide (c = "-") then PyStr.strip (PyStr.tail model_name) else model_name in
      let car_dict := <["model" := model_name]> car_dict in
      let car_dict := <["model code" := md_id model]> car_dict in
      models_loop models' car_dict (csv_rows ++ [car_dict])
  end.

(** The outer loop of [extract_maker_model_codes]. *)
Fixpoint makers_loop (data : list maker_entry)
    (car_dict : gmap string string) (csv_rows : list (gmap string string))
  : M (gmap string string * list (gmap string string)) :=
  match data with
  | [] => mret (car_dict, csv_rows)
  | maker :: data' =>
      let car_dict := <["maker" := PyStr.strip (mk_nm maker)]> car_dict in
      let car_dict := <["maker code" := mk_id maker]> car_dict in
      '(car_dict, csv_rows) ← models_loop (mk_md maker) car_dict csv_rows;
      makers_loop data' car_dict csv_rows
  end.

(** [extract_maker_model_codes(csv_name)] *)
Definition extract_maker_model_codes (csv_name : string) : M unit :=
  let csv_header := ["maker"; "model"; "maker code"; "model code"] in
  let csv_rows := [] in
  dir_path ← (λ w, (Ret (module_dir w), w));
  data ← json_load_all (os_path_join dir_path "cars_com_make_model.json");
  let car_dict := ∅ in
  '(_, csv_rows) ← makers_loop data car_dict csv_rows;
  write_cars_to_csv csv_name csv_header csv_rows.

(** [string.ascii_uppercase] *)
Definition ascii_uppercase : string := "ABCDEFGHIJKLMNOPQRSTUVWXYZ".

(** The loop of [guess_car_brand] over the lines of the reader. *)
Fixpoint load_loop (lines : list (gmap string string))
    (brands : gset string) (model_brand_pairs : gmap string string)
  : M (gset string * gmap string string) :=
  match lines with
  | [] => mret (brands, model_brand_pairs)
  | line :: lines' =>
      maker ← getitem line "maker";
      let brands := brands ∪ {[maker]} in
      maker ← getitem line "maker";
      model ← getitem line "model";
      load_loop lines' brands (<[model := maker]> model_brand_pairs)
  end.

(** The loop [while True: user_choice = input("> ") ...]: it ends on the
    first line that passes [user_choice in letters], and with [EOFError]
    when standard input has no line left.  [lines] is the input still to
    come, which bounds the number of turns. *)
Fixpoint input_loop (letters : string) (lines : list string) (w : world)
  : outcome string * world :=
  match lines with
  | [] => input "> " w
  | _ :: lines' =>
      match input "> " w with
      | (Ret user_choice, w) =>
          let user_choice := PyStr.upper user_choice in
          if PyStr.contains letters user_choice then (Ret user_choice, w)
          else match print "please pick a valid choice" w with
               | (_, w) => input_loop letters lines' w
               end
      | r => r
      end
  end.

Definition wait_valid_choice (letters : string) : M string :=
  λ w, input_loop letters (stdin w) w.

(** The question loop of [guess_car_brand]; it returns [num_correct].
    [list(model_brand_pairs.items())] and the sequence [random.sample]
    makes of the set are the enumerations [map_to_list] and [elements]. *)
Fixpoint question_loop (count question_num num_correct num_choices : nat)
    (letters : string) (brands : gset string) (model_brand_pairs : gmap string string)
  : M nat :=
  match count with
  | 0 => mret num_correct
  | S count =>
      '(model, brand) ← Random.choice (map_to_list model_brand_pairs);
      let question_num := question_num + 1 in
      first ← str_first letters;
      last ← str_last letters;
      print (pretty question_num +:+ ". What is the brand of " +:+ model
             +:+ "? (choose one from " +:+ first +:+ " to " +:+ last +:+ ")");;
      sample ← Random.sample (elements brands) (num_choices - 1);
      let choices := sample ++ [brand] in
      choices ← Random.shuffle choices;
      emit (EvDraw model brand sample choices);;
      let d := ODict.of_pairs (zip (PyStr.chars letters) choices) in
      for_each d (λ '(letter, choice),
        print_end (letter +:+ ". " +:+ choice +:+ "  ") "");;
      print "";;
      user_choice ← wait_valid_choice letters;
      emit (EvAnswer d brand user_choice);;
      num_correct ←
        (if bool_decide (is_Some (ODict.get d user_choice))
            && bool_decide (ODict.get d user_choice = Some brand)
         then print "correct!";; mret (num_correct + 1)
         else print "wrong!";;
              print (model +:+ " belongs to " +:+ brand +:+ "!");;
              mret num_correct);
      question_loop count question_num num_correct num_choices
        letters brands model_brand_pairs
  end.

(** [guess_car_brand(data_file)] *)
Definition guess_car_brand (data_file : string) : M unit :=
  dir_path ← (λ w, (Ret (module_dir w), w));
  let data_file := os_path_join dir_path "model_codes_carscom.csv" in
  found ← os_path_exists data_file;
  (if found : bool then mret tt else extract_maker_model_codes data_file);;
  let num_questions := 10 in
  let num_correct := 0 in
  let num_choices := 4 in
  let letters := PyStr.slice ascii_uppercase 0 (Z.of_nat num_choices) in
  let brands : gset string := ∅ in
  let model_brand_pairs : gmap string string := ∅ in
  lines ← csv_read data_file;
  '(brands, model_brand_pairs) ← load_loop lines brands model_brand_pairs;
  let count := num_questions in
  let question_num := 0 in
  num_correct ← question_loop count question_num num_correct num_choices
                   letters brands model_brand_pairs;
  print ("Score " +:+ pretty num_correct +:+ "/" +:+ pretty num_questions).

(** The script body under [if __name__ == "__main__"]. *)
Definition main : M unit :=
  print "Welcome to automotive brand guessing game!";;
  guess_car_brand "model_codes_carscom.csv".


(** ** Notions used to state the properties *)

(** The path of the nested dataset and of the table, next to the module. *)
Definition json_path (w : world) : string :=
  os_path_join (module_dir w) "cars_com_make_model.json".
Definition store_path (w : world) : string :=
  os_path_join (module_dir w) "model_codes_carscom.csv".

(** The model name as the specification words it: the display name
    trimmed and, when the trimmed name begins with a hyphen, without that
    hyphen and the white space after it. *)
Definition normalized_model_name (nm : string) : string :=
  let trimmed := PyStr.strip nm in
  if decide (PyStr.head trimmed = Some "-"%char)
  then PyStr.lstrip (PyStr.tail trimmed)
  else trimmed.

(** [t] is [s] without the white space around it, and [t] is [s] without
    the white space on its left. *)
Definition trimmed_of (s t : string) : Prop :=
  ∃ l r, PyStr.blank l = true ∧ PyStr.blank r = true ∧ s = l +:+ t +:+ r
         ∧ (∀ c, PyStr.head t = Some c → PyStr.is_space c = false)
         ∧ (∀ c, PyStr.last_char t = Some c → PyStr.is_space c = false).
Definition left_trimmed_of (s t : string) : Prop :=
  ∃ l, PyStr.blank l = true ∧ s = l +:+ t
       ∧ (∀ c, PyStr.head t = Some c → PyStr.is_space c = false).

(** The row of one (maker, model) pair. *)
Definition row_of (maker : maker_entry) (model : model_entry) : gmap string string :=
  <["model code" := md_id model]>
    (<["model" := normalized_model_name (md_nm model)]>
       (<["maker code" := mk_id maker]>
          (<["maker" := PyStr.strip (mk_nm maker)]> ∅))).

(** The (maker, model) pairs of a dataset, makers in order and the models
    of each maker in order. *)
Definition maker_model_pairs (data : list maker_entry)
  : list (maker_entry * model_entry) :=
  maker ← data; model ← mk_md maker; [(maker, model)].

Definition expected_rows (data : list maker_entry) : list (gmap string string) :=
  (λ p, row_of p.1 p.2) <$> maker_model_pairs data.

(** No model of the dataset has an empty or all-blank display name. *)
Definition names_present (data : list maker_entry) : Prop :=
  Forall (λ maker, Forall (λ model, PyStr.blank (md_nm model) = false) (mk_md maker)) data.

Definition csv_header : list string := ["maker"; "model"; "maker code"; "model code"].

(** The part of [write_cars_to_csv] after the old file is out of the way,
    and the world it leaves. *)
Definition write_table (csv_name : string) (header : list string) (rows : list (gmap string string)) : M unit :=
  open_w csv_name;;
  writeheader csv_name header;;
  for_each rows (λ row, writerow csv_name row);;
  print ("Writing " +:+ pretty (length rows) +:+ " cars information to " +:+ csv_name).

Definition written (csv_name : string) (header : list string) (rows : list (gmap string string)) (w : world) : world :=
  log (EvPrint (("Writing " +:+ pretty (length rows) +:+ " cars information to "
                 +:+ csv_name) +:+ PyStr.newline))
    (log (EvOpenW csv_name)
       (set_files (<[csv_name := CsvFile header rows]> (files w)) w)).


(** What one turn of the inner loop makes of [car_dict], the rows the inner
    loop appends from a given [car_dict], and the same for the outer loop. *)
Definition model_step (car_dict : gmap string string) (model : model_entry)
  : gmap string string :=
  <["model code" := md_id model]>
    (<["model" := normalized_model_name (md_nm model)]> car_dict).

Definition maker_step (car_dict : gmap string string) (maker : maker_entry)
  : gmap string string :=
  <["maker code" := mk_id maker]> (<["maker" := PyStr.strip (mk_nm maker)]> car_dict).

Fixpoint models_rows (car_dict : gmap string string) (models : list model_entry)
  : list (gmap string string) :=
  match models with
  | [] => []
  | model :: models' =>
      model_step car_dict model :: models_rows (model_step car_dict model) models'
  end.

Fixpoint makers_rows (car_dict : gmap string string) (data : list maker_entry)
  : list (gmap string string) :=
  match data with
  | [] => []
  | maker :: data' =>
      models_rows (maker_step car_dict maker) (mk_md maker)
      ++ makers_rows (foldl model_step (maker_step car_dict maker) (mk_md maker)) data'
  end.

(** [car_dict] holds nothing but the four columns. *)
Definition four_columns (car_dict : gmap string string) : Prop :=
  ∀ k, k ∉ csv_header → car_dict !! k = None.

(** [car_dict] holds the name and code of [maker] and, apart from the two
    model columns, nothing else. *)
Definition of_maker (maker : maker_entry) (car_dict : gmap string string) : Prop :=
  ∀ k, k ≠ "model" → k ≠ "model code" → car_dict !! k = maker_step ∅ maker !! k.

(** A row of the table that has the two columns the quiz reads. *)
Definition line_ok (line : gmap string string) : Prop :=
  is_Some (line !! "maker") ∧ is_Some (line !! "model").

(** What one turn of the loading loop makes of the index. *)
Definition index_step (model_brand_pairs : gmap string string)
    (line : gmap string string) : gmap string string :=
  match line !! "maker", line !! "model" with
  | Some maker, Some model => <[model := maker]> model_brand_pairs
  | _, _ => model_brand_pairs
  end.

(** The makers named in the rows of a table, and the index of its rows. *)
Definition brands_of (lines : list (gmap string string)) : gset string :=
  list_to_set (omap (λ line, line !! "maker") lines).
Definition index_of (lines : list (gmap string string)) : gmap string string :=
  foldl index_step ∅ lines.

(** The maker of the last row of the table that bears a given model name. *)
Definition last_maker_of (model : string) (lines : list (gmap string string))
  : option string :=
  last (filter (λ line, line !! "model" = Some model) lines) ≫= (λ line, line !! "maker").

(** The part of [guess_car_brand] that follows the bootstrap of the table:
    loading, the ten rounds and the score. *)
Definition run_quiz (data_file : string) : M unit :=
  lines ← csv_read data_file;
  '(brands, model_brand_pairs) ← load_loop lines ∅ ∅;
  num_correct ← question_loop 10 0 0 4 "ABCD" brands model_brand_pairs;
  print ("Score " +:+ pretty num_correct +:+ "/" +:+ pretty 10).

(** A line of input that ends the wait for a choice: the test
    [user_choice in letters] of the code, on the upper-cased line. *)
Definition valid_line (line : string) : bool :=
  PyStr.contains "ABCD" (PyStr.upper line).

(** The rounds drawn and the answers judged in a stretch of events. *)
Definition draws (evs : list event) : list (string * string * list string * list string) :=
  omap (λ e, match e with
             | EvDraw model brand sample choices => Some (model, brand, sample, choices)
             | _ => None
             end) evs.

Definition answers (evs : list event) : list (list (string * string) * string * string) :=
  omap (λ e, match e with
             | EvAnswer d brand user_choice => Some (d, brand, user_choice)
             | _ => None
             end) evs.

(** The letter chosen is mapped to the correct brand. *)
Definition right_answer (a : list (string * string) * string * string) : Prop :=
  ODict.get a.1.1 a.2 = Some a.1.2.

Definition score (evs : list event) : nat :=
  length (filter right_answer (answers evs)).

Definition is_print (e : event) : Prop :=
  match e with EvPrint _ => True | _ => False end.

(** What holds of every round drawn from [brands] and the index: the model
    is a key of the index and [brand] its maker, the sample has three
    distinct members of [brands], the shuffled choices are the sample and
    the correct brand, and they are free of duplicates exactly when the
    sample missed the correct brand. *)
Definition draw_ok (brands : gset string) (model_brand_pairs : gmap string string)
    (e : event) : Prop :=
  match e with
  | EvDraw model brand sample choices =>
      model_brand_pairs !! model = Some brand
      ∧ length sample = 3 ∧ NoDup sample ∧ (∀ b, b ∈ sample → b ∈ brands)
      ∧ choices ≡ₚ sample ++ [brand]
      ∧ (NoDup choices ↔ brand ∉ sample)
  | _ => True
  end.

(** A small program logic: from a world that satisfies [I], the call [m]
    leaves a world that satisfies [I]; a value it returns satisfies [Q] and
    an exception it raises satisfies [E]. *)
Definition safe {A} (I : world → Prop) (E : exn → Prop) (m : M A) (Q : A → Prop) : Prop :=
  ∀ w, I w →
    match m w with
    | (Ret a, w') => I w' ∧ Q a
    | (Raise e, w') => I w' ∧ E e
    | (SysExit _, w') => I w'
    end.

Global Instance right_answer_dec a : Decision (right_answer a).
Proof. unfold right_answer. apply _. Defined.

(** The table the quiz will read holds [rows]: either it is there, or it
    is absent and the nested dataset, with every model named, yields it. *)
Definition store_ready (w : world) (rows : list (gmap string string)) : Prop :=
  (∃ h, files w !! store_path w = Some (CsvFile h rows))
  ∨ (files w !! store_path w = None
     ∧ ∃ data, files w !! json_path w = Some (JsonFile data)
               ∧ names_present data ∧ rows = expected_rows data).

Global Instance line_ok_dec line : Decision (line_ok line).
Proof. unfold line_ok. apply _. Defined.

Global Instance names_present_dec data : Decision (names_present data).
Proof. unfold names_present. apply _. Defined.

(** ** Concrete inputs *)

(** A nested dataset of five makers, and one of three. *)
Definition five_makers : list maker_entry :=
  [ {| mk_nm := " Honda "; mk_id := "20017";
       mk_md := [ {| md_nm := " - Accord "; md_id := "20606" |};
                  {| md_nm := "Civic"; md_id := "20608" |} ] |};
    {| mk_nm := "Toyota"; mk_id := "20088";
       mk_md := [ {| md_nm := "Camry"; md_id := "20912" |} ] |};
    {| mk_nm := "Ford"; mk_id := "20015";
       mk_md := [ {| md_nm := "Focus"; md_id := "20456" |} ] |};
    {| mk_nm := "BMW"; mk_id := "20005";
       mk_md := [ {| md_nm := "- X5"; md_id := "21029" |} ] |};
    {| mk_nm := "Audi"; mk_id := "20049";
       mk_md := [ {| md_nm := "A4"; md_id := "20596" |} ] |} ].

Definition three_makers : list maker_entry := take 3 five_makers.

(** A world with the nested dataset next to the module, no table yet, and
    the given input lines and random numbers. *)
Definition fresh_world (data : list maker_entry) (lines : list string)
    (numbers : list nat) : world :=
  World {[ "/app/cars_com_make_model.json" := JsonFile data ]} ∅ "/app"
        lines numbers [].

(** Ten answers among lines that the quiz rejects. *)
Definition ten_answers : list string :=
  ["z"; "a"; "B"; "5"; "c"; "d"; "A"; "b"; "Z"; "C"; "D"; "a"; "b"].

(** A table in which two makers have a model of the same name. *)
Definition shared_model_rows : list (gmap string string) :=
  [ {[ "maker" := "Honda"; "model" := "Civic" ]};
    {[ "maker" := "Toyota"; "model" := "Camry" ]};
    {[ "maker" := "Kia"; "model" := "Civic" ]} ].

(** A world in which the table is already there, and one in which it
    cannot be removed. *)
Definition stale_world : world :=
  World {[ "/app/model_codes_carscom.csv" := CsvFile csv_header shared_model_rows ]}
        ∅ "/app" [] [] [].
Definition locked_world : world :=
  World {[ "/app/model_codes_carscom.csv" := CsvFile csv_header shared_model_rows ]}
        {[ "/app/model_codes_carscom.csv" ]} "/app" [] [] [].

(** ** The command line: [user_input]

    [user_input] touches nothing of the world above: it reads [sys.argv],
    prints, and asks for a directory.  It is embedded with its own events;
    [sys.argv] is an argument, and so is the answer of the file system to
    [os.makedirs]. *)

Inductive cli_event :=
  | CliPrint (text : string)
  | CliMakedirs (path : string).

Module PyInt.

Definition digit (c : ascii) : option Z :=
  let n := nat_of_ascii c in
  if ((48 <=? n)%nat && (n <=? 57)%nat) then Some (Z.of_nat (n - 48)) else None.

(** the digits of a literal, with single underscores between digits *)
Fixpoint digits (acc : Z) (s : string) : option Z :=
  match s with
  | EmptyString => Some acc
  | String c s' =>
      match digit c with
      | Some d => digits (10 * acc + d) s'
      | None =>
          if decide (c = "_"%char) then
            match s' with
            | String c' _ =>
                match digit c' with
                | Some _ => digits acc s'
                | None => None
                end
            | EmptyString => None
            end
          else None
      end
  end.

Definition literal (s : string) : option Z :=
  match s with
  | String c _ =>
      match digit c with
      | Some _ => digits 0 s
      | None => None
      end
  | EmptyString => None
  end.

(** [int(s)] for a string [s], base ten: white space around, a sign, and
    a literal.  [None] stands for [ValueError]. *)
Definition parse (s : string) : option Z :=
  match PyStr.strip s with
  | String c r =>
      if decide (c = "+"%char) then literal r
      else if decide (c = "-"%char) then Z.opp <$> literal r
      else literal (String c r)
  | EmptyString => None
  end.

End PyInt.

Definition usage_line (prog : string) : string :=
  "Usage: >> python " +:+ prog
  +:+ " <maker> <model> <zip> <radius> <used or new> <json or keyfile> <output_dir>".
Definition example_line (prog : string) : string :=
  "e.g. python " +:+ prog +:+ " Honda Accord 53715 25 used <json or keyfile> ./data/".

(** [user_input()], with [sys.argv] as [argv] and the outcome of
    [os.makedirs(path, exist_ok=True)] given by [makedirs]: it returns the
    events in order and what the call ends with. *)
Definition user_input (argv : list string) (makedirs : string → option exn)
  : list cli_event * outcome (string * string * Z * Z * string * string * string) :=
  match argv with
  | [prog; maker; model; zipcode; radius; condition; extra_file; output_dir] =>
      match PyInt.parse zipcode with
      | None => ([], Raise ValueError)
      | Some zipcode =>
          match PyInt.parse radius with
          | None => ([], Raise ValueError)
          | Some radius =>
              match makedirs output_dir with
              | Some e => ([CliMakedirs output_dir], Raise e)
              | None =>
                  ([CliMakedirs output_dir],
                   Ret (maker, model, zipcode, radius, condition, extra_file, output_dir))
              end
          end
      end
  | prog :: _ =>
      ([CliPrint (usage_line prog +:+ PyStr.newline);
        CliPrint (example_line prog +:+ PyStr.newline)],
       SysExit 1)
  | [] => ([], Raise IndexError)
  end.

(** ** Further notions *)

(** The name [extract_info_from_csvfilename] splits: the name itself, or
    what lies between its last slash and its last dot. *)
Definition base_name (csv_name : string) : string :=
  if PyStr.has_char "/" csv_name
  then PyStr.slice csv_name (PyStr.rfind "/" csv_name + 1) (PyStr.rfind "." csv_name)
  else csv_name.

Fixpoint count_char (c : ascii) (s : string) : nat :=
  match s with
  | EmptyString => 0
  | String d s' => (if decide (d = c) then 1 else 0) + count_char c s'
  end.

(** A name without white space at either end. *)
Definition trimmed (s : string) : Prop :=
  (∀ c, PyStr.head s = Some c → PyStr.is_space c = false)
  ∧ (∀ c, PyStr.last_char s = Some c → PyStr.is_space c = false).

(** The makers of a dataset that have a model. *)
Definition makers_with_models (data : list maker_entry) : list maker_entry :=
  filter (λ maker, mk_md maker ≠ []) data.


(** ** Further concrete inputs *)

(** A world with a table that has a header and no rows, one with nothing
    next to the module, and one with the nested dataset and a table that
    cannot be removed. *)
Definition empty_table_world : world :=
  World {[ "/app/model_codes_carscom.csv" := CsvFile csv_header [] ]}
        ∅ "/app" ["a"] [] [].
Definition bare_world : world := World ∅ ∅ "/app" ["a"] [] [].
Definition locked_world_with_dataset : world :=
  World {[ "/app/model_codes_carscom.csv" := CsvFile csv_header shared_model_rows;
           "/app/cars_com_make_model.json" := JsonFile five_makers ]}
        {[ "/app/model_codes_carscom.csv" ]} "/app" [] [] [].

(** A row without the column [model]. *)
Definition row_without_model : gmap string string := {[ "maker" := "Kia" ]}.

(** The first two models of [five_makers]. *)
Definition honda : maker_entry :=
  {| mk_nm := " Honda "; mk_id := "20017";
     mk_md := [ {| md_nm := " - Accord "; md_id := "20606" |};
                {| md_nm := "Civic"; md_id := "20608" |} ] |}.
Definition accord : model_entry := {| md_nm := " - Accord "; md_id := "20606" |}.

(** * Properties *)

(** ** Text *)

Section strings.
Import PyStr.

Lemma lstrip_blank s : lstrip s = EmptyString ↔ blank s = true.
Proof.
  induction s as [|c s IH]; simpl; [done|].
  destruct (is_space c); simpl; [done|]. split; discriminate.
Qed.

Lemma rstrip_blank s : rstrip s = EmptyString ↔ blank s = true.
Proof.
  induction s as [|c s IH]; simpl; [done|].
  destruct (rstrip s) eqn:Hr.
  - destruct (is_space c); simpl.
    + split; [intros _; by apply IH|done].
    + split; discriminate.
  - split; [discriminate|]. intros [_ Hb]%andb_true_iff.
    apply IH in Hb. discriminate.
Qed.

Lemma blank_lstrip s : blank (lstrip s) = blank s.
Proof.
  induction s as [|c s IH]; simpl; [done|].
  destruct (is_space c) eqn:Hc; simpl; [done|]. by rewrite Hc.
Qed.

(** [s.strip()] is empty exactly for the empty and the all-blank names *)
Lemma strip_blank s : strip s = EmptyString ↔ blank s = true.
Proof. unfold strip. by rewrite rstrip_blank, blank_lstrip. Qed.

Lemma strip_head_None s : head (strip s) = None ↔ blank s = true.
Proof.
  rewrite <-strip_blank. destruct (strip s); simpl; split; done.
Qed.

(** a string is stripped on the right when [rstrip] leaves it alone;
    this passes to its tail and to what [lstrip] keeps of it *)
Lemma rstrip_idemp s : rstrip (rstrip s) = rstrip s.
Proof.
  induction s as [|c s IH]; simpl; [done|].
  destruct (rstrip s) as [|d r] eqn:Hr.
  - destruct (is_space c) eqn:Hc; simpl; [done|]. by rewrite Hc.
  - simpl in *. by rewrite IH.
Qed.

Lemma rstrip_fixed_tail c s : rstrip (String c s) = String c s → rstrip s = s.
Proof.
  simpl. destruct (rstrip s) as [|d r] eqn:Hr.
  - destruct (is_space c); [discriminate|]. by intros [= <-].
  - by intros [= <-].
Qed.

Lemma rstrip_fixed_lstrip s : rstrip s = s → rstrip (lstrip s) = lstrip s.
Proof.
  induction s as [|c s IH]; [done|]. intros Hs. simpl lstrip.
  destruct (is_space c); [|done]. by apply IH, (rstrip_fixed_tail c).
Qed.

Lemma strip_rstrip_fixed s : rstrip (strip s) = strip s.
Proof. apply rstrip_idemp. Qed.

(** after the trim, stripping the rest of a name on both sides removes
    white space on its left only *)
Lemma strip_tail_strip s : strip (tail (strip s)) = lstrip (tail (strip s)).
Proof.
  unfold strip at 1. apply rstrip_fixed_lstrip.
  pose proof (strip_rstrip_fixed s) as H.
  destruct (strip s) as [|c t]; [done|]. by apply (rstrip_fixed_tail c).
Qed.

(** what the trim removes is white space, and what it keeps neither
    starts nor ends with white space *)
Lemma append_cons c l r : String c l +:+ r = String c (l +:+ r).
Proof. reflexivity. Qed.

Lemma append_empty_l r : EmptyString +:+ r = r.
Proof. reflexivity. Qed.

Lemma lstrip_decompose s :
  ∃ l, blank l = true ∧ s = l +:+ lstrip s ∧
       ∀ c, head (lstrip s) = Some c → is_space c = false.
Proof.
  induction s as [|c s (l & Hl & Hs & Hc)]; simpl.
  - exists EmptyString. by split_and!.
  - destruct (is_space c) eqn:Hsp.
    + exists (String c l). simpl. rewrite Hsp, Hl, append_cons, <-Hs.
      by split_and!.
    + exists EmptyString. split_and!; [done..|]. simpl. by intros ? [= <-].
Qed.

Lemma rstrip_decompose s :
  ∃ r, blank r = true ∧ s = rstrip s +:+ r ∧
       ∀ c, last_char (rstrip s) = Some c → is_space c = false.
Proof.
  induction s as [|c s (r & Hr & Hs & Hc)]; simpl.
  - exists EmptyString. by split_and!.
  - destruct (rstrip s) as [|d t] eqn:Ht.
    + rewrite append_empty_l in Hs. subst r.
      destruct (is_space c) eqn:Hsp.
      * exists (String c s). simpl. rewrite Hsp, Hr. by split_and!.
      * exists s. rewrite append_cons, append_empty_l.
        split_and!; [done..|]. simpl. by intros ? [= <-].
    + exists r. rewrite append_cons, <-Hs. by split_and!.
Qed.

Lemma head_rstrip_lstrip s c :
  head (rstrip (lstrip s)) = Some c → is_space c = false.
Proof.
  destruct (lstrip_decompose s) as (l & _ & _ & Hc).
  destruct (lstrip s) as [|d t] eqn:Hl; [done|].
  simpl. destruct (rstrip t); [destruct (is_space d) eqn:?|]; simpl;
    intros [= <-]; by apply Hc.
Qed.

Lemma strip_decompose s :
  ∃ l r, blank l = true ∧ blank r = true ∧ s = l +:+ strip s +:+ r ∧
         (∀ c, head (strip s) = Some c → is_space c = false) ∧
         (∀ c, last_char (strip s) = Some c → is_space c = false).
Proof.
  destruct (lstrip_decompose s) as (l & Hl & Hs & _).
  destruct (rstrip_decompose (lstrip s)) as (r & Hr & Hs' & Hc').
  exists l, r. unfold strip. split_and!; [done..| | |done].
  - by rewrite <-Hs'.
  - apply head_rstrip_lstrip.
Qed.

Lemma strip_trimmed s : trimmed_of s (strip s).
Proof. apply strip_decompose. Qed.

Lemma lstrip_left_trimmed s : left_trimmed_of s (lstrip s).
Proof. apply lstrip_decompose. Qed.

End strings.

(** ** The monad *)

Lemma bind_Ret {A B} (m : M A) (k : A → M B) w a w' :
  m w = (Ret a, w') → (m ≫= k) w = k a w'.
Proof. unfold mbind, M_bind. by intros ->. Qed.

Lemma bind_Raise {A B} (m : M A) (k : A → M B) w e w' :
  m w = (Raise e, w') → (m ≫= k) w = (Raise e, w').
Proof. unfold mbind, M_bind. by intros ->. Qed.

Lemma bind_SysExit {A B} (m : M A) (k : A → M B) w n w' :
  m w = (SysExit n, w') → (m ≫= k) w = (SysExit n, w').
Proof. unfold mbind, M_bind. by intros ->. Qed.

Lemma print_eq text w :
  print text w = (Ret tt, log (EvPrint (text +:+ PyStr.newline)) w).
Proof. reflexivity. Qed.

(** ** Parsing a file name *)

Section file_names.
Import PyStr.

Lemma length_append (a b : string) :
  String.length (a +:+ b) = String.length a + String.length b.
Proof. induction a as [|c a IH]; [done|]. rewrite append_cons. simpl. by rewrite IH. Qed.

Lemma has_char_append c (a b : string) :
  has_char c (a +:+ b) = has_char c a || has_char c b.
Proof.
  induction a as [|d a IH]; [done|]. rewrite append_cons. simpl.
  by destruct (decide (d = c)).
Qed.

Lemma rfind_absent c s : has_char c s = false → rfind c s = (-1)%Z.
Proof.
  induction s as [|d s IH]; [done|]. simpl.
  destruct (decide (d = c)); [done|]. intros Hs. by rewrite (IH Hs).
Qed.

Lemma rfind_last c (a b : string) :
  has_char c b = false → rfind c (a +:+ String c b) = Z.of_nat (String.length a).
Proof.
  intros Hb. induction a as [|d a IH].
  - rewrite append_empty_l. cbn [rfind]. rewrite (rfind_absent c b Hb).
    destruct (Z.leb_spec 0 (-1)); [lia|]. by rewrite decide_True.
  - rewrite append_cons. cbn [rfind]. rewrite IH.
    destruct (Z.leb_spec 0 (Z.of_nat (String.length a))); [|lia].
    simpl String.length. lia.
Qed.

Lemma substring_skip (a s : string) n :
  String.substring (String.length a) n (a +:+ s) = String.substring 0 n s.
Proof. induction a as [|c a IH]; [done|]. by rewrite append_cons. Qed.

Lemma substring_prefix (b r : string) :
  String.substring 0 (String.length b) (b +:+ r) = b.
Proof.
  induction b as [|c b IH]; [by destruct r|]. rewrite append_cons. simpl. by rewrite IH.
Qed.

Lemma slice_middle (a b r : string) :
  slice (a +:+ b +:+ r) (Z.of_nat (String.length a))
        (Z.of_nat (String.length a + String.length b)) = b.
Proof.
  unfold slice. rewrite !length_append.
  destruct (Z.ltb_spec (Z.of_nat (String.length a)) 0); [lia|].
  destruct (Z.ltb_spec (Z.of_nat (String.length a + String.length b)) 0); [lia|].
  rewrite !Z.min_l by lia.
  replace (Z.to_nat (Z.of_nat (String.length a))) with (String.length a) by lia.
  replace (Z.to_nat (Z.of_nat (String.length a + String.length b)
                     - Z.of_nat (String.length a))) with (String.length b) by lia.
  by rewrite substring_skip, substring_prefix.
Qed.

(** what the function makes of the segments of the name it splits *)
Lemma extract_info_segments csv_name base maker model middle condition :
  (if has_char "/" csv_name
   then slice csv_name (rfind "/" csv_name + 1) (rfind "." csv_name)
   else csv_name) = base →
  split "-" base = maker :: model :: middle ++ [condition] →
  extract_info_from_csvfilename csv_name
  = Ret {[ "maker" := upper maker; "model" := upper model;
           "condition" := upper condition ]}.
Proof.
  intros Hbase Hsplit. unfold extract_info_from_csvfilename.
  by rewrite Hbase, Hsplit, last_snoc.
Qed.

Lemma append_assoc (a b c : string) : (a +:+ b) +:+ c = a +:+ b +:+ c.
Proof. induction a as [|d a IH]; [done|]. by rewrite !append_cons, IH. Qed.

Lemma base_of_path dir base ext :
  has_char "/" base = false → has_char "/" ext = false →
  has_char "." ext = false →
  slice (dir +:+ String "/" (base +:+ String "." ext))
        (rfind "/" (dir +:+ String "/" (base +:+ String "." ext)) + 1)
        (rfind "." (dir +:+ String "/" (base +:+ String "." ext)))
  = base.
Proof.
  intros Hb He Hd.
  rewrite rfind_last; last first.
  { rewrite has_char_append, Hb. simpl. by repeat case_decide. }
  assert (dir +:+ String "/" (base +:+ String "." ext)
          = (dir +:+ String "/" base) +:+ String "." ext) as Hname.
  { by rewrite append_assoc, append_cons. }
  rewrite Hname at 2. rewrite rfind_last by done.
  assert (dir +:+ String "/" (base +:+ String "." ext)
          = (dir +:+ "/") +:+ base +:+ String "." ext) as Hname'.
  { rewrite append_assoc. by rewrite append_cons, append_empty_l. }
  rewrite Hname'.
  replace (Z.of_nat (String.length dir) + 1)%Z
    with (Z.of_nat (String.length (dir +:+ "/")))
    by (rewrite length_append; simpl; lia).
  replace (String.length (dir +:+ String "/" base))
    with (String.length (dir +:+ "/") + String.length base)
    by (rewrite !length_append; simpl; lia).
  apply slice_middle.
Qed.

(** X1: for a path [dir/base.ext], with no slash in [base] and [ext] and
    no dot in [ext], the directory and the extension are cut and the
    first, second and last hyphen-separated segments of [base] are
    returned in upper case; the segments between them are ignored. *)
Theorem extract_info_path dir base ext maker model middle condition :
  has_char "/" base = false → has_char "/" ext = false →
  has_char "." ext = false →
  split "-" base = maker :: model :: middle ++ [condition] →
  extract_info_from_csvfilename (dir +:+ String "/" (base +:+ String "." ext))
  = Ret {[ "maker" := upper maker; "model" := upper model;
           "condition" := upper condition ]}.
Proof.
  intros Hb He Hd Hsplit. apply (extract_info_segments _ base _ _ middle); [|done].
  rewrite has_char_append. simpl has_char at 2.
  rewrite orb_true_r.
  by apply base_of_path.
Qed.

(** a bare name [base.ext]: the extension stays in the last segment *)
Lemma extract_info_bare_name name maker model middle last_segment :
  has_char "/" name = false →
  split "-" name = maker :: model :: middle ++ [last_segment] →
  extract_info_from_csvfilename name
  = Ret {[ "maker" := upper maker; "model" := upper model;
           "condition" := upper last_segment ]}.
Proof.
  intros Hn Hsplit. apply (extract_info_segments _ name _ _ middle); [|done].
  by rewrite Hn.
Qed.

End file_names.

(** C2 (the code at the file name of the claim): for the bare name
    [honda-accord-2019-used.csv] the function returns the condition
    [USED.CSV], not [USED]: the extension is cut only on the branch taken
    when the name contains a slash, as it is for
    [data/honda-accord-2019-used.csv]. *)
Theorem extract_info_bare_filename_keeps_extension :
  extract_info_from_csvfilename "honda-accord-2019-used.csv"
    = Ret {[ "maker" := "HONDA"; "model" := "ACCORD"; "condition" := "USED.CSV" ]}
  ∧ extract_info_from_csvfilename "honda-accord-2019-used.csv"
    ≠ Ret {[ "maker" := "HONDA"; "model" := "ACCORD"; "condition" := "USED" ]}
  ∧ extract_info_from_csvfilename "data/honda-accord-2019-used.csv"
    = Ret {[ "maker" := "HONDA"; "model" := "ACCORD"; "condition" := "USED" ]}.
Proof.
  assert (extract_info_from_csvfilename "honda-accord-2019-used.csv"
    = Ret {[ "maker" := "HONDA"; "model" := "ACCORD"; "condition" := "USED.CSV" ]})
    as Hbare by (vm_compute; reflexivity).
  split; [exact Hbare|]. split; [|vm_compute; reflexivity].
  rewrite Hbare. by intros [= ?].
Qed.

(** ** Writing the table *)

Section write_cars.
Implicit Types (w : world) (rows : list (gmap string string)).

Lemma for_each_writerow csv_name rows w h rows0 :
  files w !! csv_name = Some (CsvFile h rows0) →
  for_each rows (λ row, writerow csv_name row) w
  = (Ret tt, set_files (<[csv_name := CsvFile h (rows0 ++ rows)]> (files w)) w).
Proof.
  revert w rows0. induction rows as [|row rows IH]; intros w rows0 Hw; simpl.
  - unfold mret, M_ret. rewrite app_nil_r, insert_id by done. by destruct w.
  - erewrite bind_Ret; last by (unfold writerow; rewrite Hw).
    rewrite IH with (rows0 := rows0 ++ [row]); last by (simpl; apply lookup_insert_eq).
    simpl. by rewrite insert_insert_eq, <-app_assoc.
Qed.

Lemma write_table_eq csv_name header rows w :
  write_table csv_name header rows w = (Ret tt, written csv_name header rows w).
Proof.
  unfold write_table, written.
  erewrite bind_Ret; last reflexivity.
  erewrite bind_Ret; last reflexivity.
  erewrite bind_Ret; last by (apply for_each_writerow with (rows0 := []); simpl;
                               apply lookup_insert_eq).
  rewrite print_eq. simpl. by rewrite !insert_insert_eq.
Qed.

Lemma write_cars_to_csv_fresh csv_name header rows w :
  files w !! csv_name = None →
  write_cars_to_csv csv_name header rows w
  = (Ret tt, written csv_name header rows w).
Proof.
  intros Hw. unfold write_cars_to_csv.
  erewrite bind_Ret; last reflexivity.
  rewrite bool_decide_eq_false_2 by (rewrite Hw; by intros [? ?]).
  erewrite bind_Ret; last reflexivity.
  apply write_table_eq.
Qed.

Lemma write_cars_to_csv_removed csv_name header rows w :
  is_Some (files w !! csv_name) → csv_name ∉ locked w →
  write_cars_to_csv csv_name header rows w
  = (Ret tt,
     written csv_name header rows
       (log (EvPrint (("delete previous " +:+ csv_name) +:+ PyStr.newline))
          (log (EvRemove csv_name) (set_files (delete csv_name (files w)) w)))).
Proof.
  intros Hw Hl. unfold write_cars_to_csv.
  erewrite bind_Ret; last reflexivity.
  rewrite bool_decide_eq_true_2 by done.
  erewrite bind_Ret; last first.
  { unfold try_except. erewrite bind_Ret; last first.
    { unfold os_remove. destruct Hw as [f ->]. by rewrite decide_False. }
    by rewrite print_eq. }
  apply write_table_eq.
Qed.

Lemma write_cars_to_csv_locked csv_name header rows w :
  is_Some (files w !! csv_name) → csv_name ∈ locked w →
  write_cars_to_csv csv_name header rows w
  = (SysExit 1, log (EvPrint (("error in deleting " +:+ csv_name) +:+ PyStr.newline)) w).
Proof.
  intros Hw Hl. unfold write_cars_to_csv.
  erewrite bind_Ret; last reflexivity.
  rewrite bool_decide_eq_true_2 by done.
  erewrite bind_SysExit; first done.
  unfold try_except. erewrite bind_Raise; last first.
  { unfold os_remove. destruct Hw as [f ->]. by rewrite decide_True. }
  simpl. erewrite bind_Ret; last by rewrite print_eq. done.
Qed.


End write_cars.


(** ** Building the table from the nested dataset *)

Section extract.
Implicit Types (w : world) (car_dict : gmap string string)
  (rows : list (gmap string string)) (data : list maker_entry).

(** the name the loop stores is the name the specification describes *)
Lemma stored_model_name nm c t :
  PyStr.strip nm = String c t →
  (if decide (PyStr.of_char c = "-")
   then PyStr.strip (PyStr.tail (PyStr.strip nm)) else PyStr.strip nm)
  = normalized_model_name nm.
Proof.
  intros Hs. unfold normalized_model_name. cbv zeta.
  rewrite strip_tail_strip, Hs. simpl.
  destruct (decide (PyStr.of_char c = "-")) as [[= ->]|Hc].
  - by rewrite decide_True.
  - rewrite decide_False; [done|]. intros [= ->]. by apply Hc.
Qed.

Lemma models_loop_named models car_dict rows w :
  Forall (λ model, PyStr.blank (md_nm model) = false) models →
  models_loop models car_dict rows w
  = (Ret (foldl model_step car_dict models, rows ++ models_rows car_dict models), w).
Proof.
  intros H. revert car_dict rows.
  induction H as [|model models Hm _ IH]; intros car_dict rows; simpl.
  - by rewrite app_nil_r.
  - destruct (PyStr.strip (md_nm model)) as [|c t] eqn:Hs.
    { apply strip_blank in Hs. congruence. }
    erewrite bind_Ret; last reflexivity.
    rewrite <-Hs, (stored_model_name _ c t Hs).
    fold (model_step car_dict model). by rewrite IH, <-app_assoc.
Qed.

Lemma models_loop_unnamed models car_dict rows w :
  Exists (λ model, PyStr.blank (md_nm model) = true) models →
  models_loop models car_dict rows w = (Raise IndexError, w).
Proof.
  intros H. revert car_dict rows.
  induction models as [|model models IH]; intros car_dict rows; simpl.
  { by apply Exists_nil in H. }
  destruct (PyStr.strip (md_nm model)) as [|c t] eqn:Hs.
  { by erewrite bind_Raise. }
  erewrite bind_Ret; last reflexivity.
  apply IH. apply Exists_cons in H as [H|H]; [|done].
  apply strip_blank in H. congruence.
Qed.

Lemma makers_loop_named data car_dict rows w :
  names_present data →
  ∃ car_dict', makers_loop data car_dict rows w
               = (Ret (car_dict', rows ++ makers_rows car_dict data), w).
Proof.
  intros H. revert car_dict rows.
  induction H as [|maker data Hm _ IH]; intros car_dict rows; simpl.
  - eexists. by rewrite app_nil_r.
  - fold (maker_step car_dict maker).
    erewrite bind_Ret; last by apply models_loop_named.
    destruct (IH (foldl model_step (maker_step car_dict maker) (mk_md maker))
                 (rows ++ models_rows (maker_step car_dict maker) (mk_md maker)))
      as [cd' ->].
    eexists. by rewrite <-app_assoc.
Qed.

Lemma makers_loop_unnamed data car_dict rows w :
  Exists (λ maker, Exists (λ model, PyStr.blank (md_nm model) = true) (mk_md maker)) data →
  makers_loop data car_dict rows w = (Raise IndexError, w).
Proof.
  intros H. revert car_dict rows.
  induction data as [|maker data IH]; intros car_dict rows; simpl.
  { by apply Exists_nil in H. }
  destruct (decide (Exists (λ model, PyStr.blank (md_nm model) = true) (mk_md maker)))
    as [Hm|Hm].
  - by erewrite bind_Raise; last by apply models_loop_unnamed.
  - erewrite bind_Ret; last first.
    { apply models_loop_named. apply not_Exists_Forall in Hm; [|apply _].
      eapply Forall_impl; [exact Hm|]. simpl. intros model Hb.
      by destruct (PyStr.blank (md_nm model)). }
    apply IH. by apply Exists_cons in H as [H|H].
Qed.

(** the rows, read off the dictionary that the loops overwrite, are the
    rows of the (maker, model) pairs *)
Lemma model_step_row maker model car_dict :
  of_maker maker car_dict → model_step car_dict model = row_of maker model.
Proof.
  intros H. apply map_eq. intros k. unfold model_step, row_of.
  destruct (decide (k = "model code")) as [->|?]; [by rewrite !lookup_insert_eq|].
  rewrite !(lookup_insert_ne _ "model code") by done.
  destruct (decide (k = "model")) as [->|?]; [by rewrite !lookup_insert_eq|].
  rewrite !(lookup_insert_ne _ "model") by done. by apply H.
Qed.

Lemma model_step_of_maker maker model car_dict :
  of_maker maker car_dict → of_maker maker (model_step car_dict model).
Proof.
  intros H k ? ?. unfold model_step. rewrite !lookup_insert_ne by done. by apply H.
Qed.

Lemma maker_step_of_maker maker car_dict :
  four_columns car_dict → of_maker maker (maker_step car_dict maker).
Proof.
  intros H k ? ?. unfold maker_step.
  destruct (decide (k = "maker code")) as [->|?]; [by rewrite !lookup_insert_eq|].
  rewrite !(lookup_insert_ne _ "maker code") by done.
  destruct (decide (k = "maker")) as [->|?]; [by rewrite !lookup_insert_eq|].
  rewrite !(lookup_insert_ne _ "maker") by done.
  rewrite lookup_empty. apply H. unfold csv_header.
  repeat (apply not_elem_of_cons; split; [done|]). apply not_elem_of_nil.
Qed.

Lemma of_maker_four_columns maker car_dict :
  of_maker maker car_dict → four_columns car_dict.
Proof.
  intros H k Hk. unfold csv_header in Hk.
  rewrite !not_elem_of_cons in Hk. destruct Hk as (? & ? & ? & ? & _).
  rewrite H by done. unfold maker_step.
  by rewrite !lookup_insert_ne by done.
Qed.

Lemma models_rows_of_maker maker models car_dict :
  of_maker maker car_dict →
  models_rows car_dict models = row_of maker <$> models
  ∧ of_maker maker (foldl model_step car_dict models).
Proof.
  revert car_dict. induction models as [|model models IH]; intros car_dict H; simpl.
  - by split.
  - destruct (IH _ (model_step_of_maker maker model _ H)) as [-> ?].
    split; [|done]. by rewrite (model_step_row maker) by done.
Qed.

Lemma pairs_of_maker_rows maker (models : list model_entry) :
  (λ p, row_of p.1 p.2) <$> (models ≫= λ model, [(maker, model)])
  = row_of maker <$> models.
Proof.
  induction models as [|model models IH]; [done|].
  rewrite bind_cons, fmap_app, fmap_cons, IH. done.
Qed.

Lemma makers_rows_expected data car_dict :
  four_columns car_dict → makers_rows car_dict data = expected_rows data.
Proof.
  revert car_dict. induction data as [|maker data IH]; intros car_dict H; [done|].
  simpl. pose proof (maker_step_of_maker maker _ H) as Hm.
  destruct (models_rows_of_maker maker (mk_md maker) _ Hm) as [-> Hm'].
  rewrite IH by by eapply of_maker_four_columns.
  unfold expected_rows, maker_model_pairs.
  by rewrite bind_cons, fmap_app, pairs_of_maker_rows.
Qed.

Lemma four_columns_empty : four_columns ∅.
Proof. intros k _. apply lookup_empty. Qed.

Lemma extract_named csv_name w data :
  files w !! json_path w = Some (JsonFile data) →
  names_present data →
  extract_maker_model_codes csv_name w
  = write_cars_to_csv csv_name csv_header (expected_rows data) w.
Proof.
  intros Hj Hd. unfold extract_maker_model_codes.
  erewrite bind_Ret; last reflexivity.
  erewrite bind_Ret; last by (unfold json_load_all; fold (json_path w); rewrite Hj).
  destruct (makers_loop_named data ∅ [] w Hd) as [cd Hl].
  erewrite bind_Ret; last exact Hl.
  simpl. by rewrite makers_rows_expected by apply four_columns_empty.
Qed.

Lemma extract_unnamed csv_name w data :
  files w !! json_path w = Some (JsonFile data) →
  Exists (λ maker, Exists (λ model, PyStr.blank (md_nm model) = true) (mk_md maker)) data →
  extract_maker_model_codes csv_name w = (Raise IndexError, w).
Proof.
  intros Hj Hd. unfold extract_maker_model_codes.
  erewrite bind_Ret; last reflexivity.
  erewrite bind_Ret; last by (unfold json_load_all; fold (json_path w); rewrite Hj).
  by erewrite bind_Raise; last by apply makers_loop_unnamed.
Qed.

Lemma write_cars_to_csv_outcome csv_name header rows w :
  (write_cars_to_csv csv_name header rows w).1 = Ret tt
  ∨ (write_cars_to_csv csv_name header rows w).1 = SysExit 1.
Proof.
  destruct (files w !! csv_name) as [f|] eqn:Hf.
  - destruct (decide (csv_name ∈ locked w)).
    + right. by rewrite write_cars_to_csv_locked by (by rewrite ?Hf).
    + left. by rewrite write_cars_to_csv_removed by (by rewrite ?Hf).
  - left. by rewrite write_cars_to_csv_fresh.
Qed.

Lemma write_cars_to_csv_writes csv_name header rows w :
  files w !! csv_name = None ∨ csv_name ∉ locked w →
  ∃ w', write_cars_to_csv csv_name header rows w = (Ret tt, w')
        ∧ files w' !! csv_name = Some (CsvFile header rows).
Proof.
  intros Hw. destruct (files w !! csv_name) as [f|] eqn:Hf.
  - destruct Hw as [?|Hl]; [done|]. eexists. split.
    + apply write_cars_to_csv_removed; [by rewrite Hf|done].
    + simpl. apply lookup_insert_eq.
  - eexists. split; [by apply write_cars_to_csv_fresh|]. simpl. apply lookup_insert_eq.
Qed.

Lemma extract_writes csv_name w data :
  files w !! json_path w = Some (JsonFile data) →
  names_present data →
  files w !! csv_name = None ∨ csv_name ∉ locked w →
  ∃ w', extract_maker_model_codes csv_name w = (Ret tt, w')
        ∧ files w' !! csv_name = Some (CsvFile csv_header (expected_rows data)).
Proof.
  intros Hj Hd Hw. rewrite (extract_named _ _ data) by done.
  by apply write_cars_to_csv_writes.
Qed.

Lemma length_maker_model_pairs data :
  length (maker_model_pairs data) = sum_list (length ∘ mk_md <$> data).
Proof.
  unfold maker_model_pairs. induction data as [|maker data IH]; [done|].
  rewrite bind_cons, length_app, IH, fmap_cons. simpl. f_equal.
  induction (mk_md maker) as [|model models IHm]; [done|].
  rewrite bind_cons. simpl. by rewrite IHm.
Qed.

Lemma expected_rows_bind data :
  expected_rows data = data ≫= λ maker, row_of maker <$> mk_md maker.
Proof.
  unfold expected_rows, maker_model_pairs. induction data as [|maker data IH]; [done|].
  by rewrite !bind_cons, fmap_app, pairs_of_maker_rows, IH.
Qed.

Lemma row_of_lookup maker model :
  row_of maker model !! "maker" = Some (PyStr.strip (mk_nm maker))
  ∧ row_of maker model !! "maker code" = Some (mk_id maker)
  ∧ row_of maker model !! "model" = Some (normalized_model_name (md_nm model))
  ∧ row_of maker model !! "model code" = Some (md_id model).
Proof. unfold row_of. split_and!; by simplify_map_eq. Qed.

(** C5: the builder writes one row for each (maker, model) pair of the
    dataset, as many as the model lists have entries together, makers in
    the order of the dataset and the models of each maker in their order,
    each row with the name and code of its maker and of its model. *)
Theorem extract_maker_model_codes_one_row_per_pair csv_name w data :
  files w !! json_path w = Some (JsonFile data) →
  names_present data →
  files w !! csv_name = None ∨ csv_name ∉ locked w →
  ∃ w' rows,
    extract_maker_model_codes csv_name w = (Ret tt, w')
    ∧ files w' !! csv_name = Some (CsvFile csv_header rows)
    ∧ length rows = sum_list (length ∘ mk_md <$> data)
    ∧ rows = (data ≫= λ maker, row_of maker <$> mk_md maker)
    ∧ ∀ i maker model,
        maker_model_pairs data !! i = Some (maker, model) →
        ∃ row, rows !! i = Some row
               ∧ row !! "maker" = Some (PyStr.strip (mk_nm maker))
               ∧ row !! "maker code" = Some (mk_id maker)
               ∧ row !! "model" = Some (normalized_model_name (md_nm model))
               ∧ row !! "model code" = Some (md_id model).
Proof.
  intros Hj Hd Hw. destruct (extract_writes csv_name w data Hj Hd Hw) as (w' & Hrun & Hf).
  exists w', (expected_rows data). split_and!; [done..| | |].
  - unfold expected_rows. by rewrite length_fmap, length_maker_model_pairs.
  - apply expected_rows_bind.
  - intros i maker model Hi. exists (row_of maker model). split.
    + unfold expected_rows. by rewrite list_lookup_fmap, Hi.
    + apply row_of_lookup.
Qed.

(** C4: in every row written, the maker name is the display name of the
    maker trimmed, and the model name is the display name of the model
    trimmed and, when the trimmed name begins with a hyphen, without that
    hyphen and the white space after it; a trimmed name that does not
    begin with a hyphen is written as it is.  Trimming removes white
    space, and nothing else, from both ends, and the rest of a name after
    its hyphen loses the white space on its left. *)
Theorem extract_maker_model_codes_normalizes_names csv_name w data :
  files w !! json_path w = Some (JsonFile data) →
  names_present data →
  files w !! csv_name = None ∨ csv_name ∉ locked w →
  ∃ w' rows,
    extract_maker_model_codes csv_name w = (Ret tt, w')
    ∧ files w' !! csv_name = Some (CsvFile csv_header rows)
    ∧ Forall2 (λ row p,
        row !! "maker" = Some (PyStr.strip (mk_nm p.1))
        ∧ (∀ rest, PyStr.strip (md_nm p.2) = String "-" rest →
                   row !! "model" = Some (PyStr.lstrip rest))
        ∧ (PyStr.head (PyStr.strip (md_nm p.2)) ≠ Some "-"%char →
           row !! "model" = Some (PyStr.strip (md_nm p.2))))
      rows (maker_model_pairs data)
    ∧ (∀ nm, trimmed_of nm (PyStr.strip nm))
    ∧ (∀ rest, left_trimmed_of rest (PyStr.lstrip rest)).
Proof.
  intros Hj Hd Hw. destruct (extract_writes csv_name w data Hj Hd Hw) as (w' & Hrun & Hf).
  exists w', (expected_rows data).
  split_and!; [done..| |apply strip_trimmed|apply lstrip_left_trimmed].
  unfold expected_rows. apply Forall2_fmap_l, Forall_Forall2_diag, Forall_forall.
  intros [maker model] _. simpl.
  destruct (row_of_lookup maker model) as (Hmk & _ & Hmd & _).
  split_and!; [done| |].
  - intros rest Hs. rewrite Hmd. unfold normalized_model_name. cbv zeta.
    by rewrite Hs.
  - intros Hs. rewrite Hmd. unfold normalized_model_name. cbv zeta.
    by rewrite decide_False.
Qed.

(** C10: the builder reads character 0 of each trimmed model name.  When
    some model name of the dataset is empty or all white space, the call
    ends in [IndexError] and nothing is written; when every model name
    trims to a non-empty string, that read never fails and all rows reach
    [write_cars_to_csv]. *)
Theorem extract_maker_model_codes_first_character csv_name w data :
  files w !! json_path w = Some (JsonFile data) →
  ((∃ maker model, maker ∈ data ∧ model ∈ mk_md maker
                   ∧ PyStr.blank (md_nm model) = true) →
   extract_maker_model_codes csv_name w = (Raise IndexError, w))
  ∧ ((∀ maker model, maker ∈ data → model ∈ mk_md maker →
                     PyStr.strip (md_nm model) ≠ EmptyString) →
     extract_maker_model_codes csv_name w
     = write_cars_to_csv csv_name csv_header (expected_rows data) w
     ∧ (extract_maker_model_codes csv_name w).1 ≠ Raise IndexError)
  ∧ (∀ nm, PyStr.blank nm = true ↔ PyStr.strip nm = EmptyString).
Proof.
  intros Hj. split_and!.
  - intros (maker & model & Hmk & Hmd & Hb). apply (extract_unnamed _ _ data Hj).
    apply Exists_exists. exists maker. split; [done|].
    apply Exists_exists. by exists model.
  - intros Hd.
    assert (names_present data) as Hn.
    { apply Forall_forall. intros maker Hmk. apply Forall_forall. intros model Hmd.
      specialize (Hd maker model Hmk Hmd). rewrite strip_blank in Hd.
      by destruct (PyStr.blank (md_nm model)). }
    rewrite (extract_named _ _ data Hj Hn). split; [done|].
    by destruct (write_cars_to_csv_outcome csv_name csv_header (expected_rows data) w)
      as [-> | ->].
  - intros nm. by rewrite strip_blank.
Qed.

End extract.

(** ** Loading the table *)

Section load.
Implicit Types (w : world) (line : gmap string string)
  (lines : list (gmap string string)) (brands : gset string)
  (pairs : gmap string string).

Lemma load_loop_eq lines brands pairs w :
  Forall line_ok lines →
  load_loop lines brands pairs w
  = (Ret (brands ∪ brands_of lines, foldl index_step pairs lines), w).
Proof.
  intros H. revert brands pairs.
  induction H as [|line lines [[maker Hmk] [model Hmd]] _ IH]; intros brands pairs.
  - simpl. unfold brands_of. simpl. by rewrite (right_id_L ∅ (∪)).
  - simpl. unfold getitem. rewrite Hmk, Hmd.
    do 3 (erewrite bind_Ret; last reflexivity).
    rewrite IH. unfold brands_of, index_step. simpl. rewrite Hmk, Hmd. simpl.
    by rewrite (assoc_L (∪)).
Qed.

Lemma load_loop_key_error lines brands pairs w :
  ¬ Forall line_ok lines →
  ∃ key, load_loop lines brands pairs w = (Raise (KeyError key), w).
Proof.
  revert brands pairs. induction lines as [|line lines IH]; intros brands pairs H.
  { by destruct H. }
  simpl. unfold getitem. destruct (line !! "maker") as [maker|] eqn:Hmk.
  - do 2 (erewrite bind_Ret; last reflexivity).
    destruct (line !! "model") as [model|] eqn:Hmd.
    + erewrite bind_Ret; last reflexivity. apply IH. intros Hl. apply H.
      constructor; [|done]. split; by eexists.
    + eexists. by erewrite bind_Raise.
  - eexists. by erewrite bind_Raise.
Qed.

Lemma foldl_index_step_lookup lines pairs model :
  Forall line_ok lines →
  foldl index_step pairs lines !! model
  = match last (filter (λ line, line !! "model" = Some model) lines) with
    | Some line => line !! "maker"
    | None => pairs !! model
    end.
Proof.
  intros H. revert pairs.
  induction H as [|line lines [[maker Hmk] [md Hmd]] _ IH]; intros pairs; [done|].
  simpl. rewrite IH, filter_cons. unfold index_step. rewrite Hmk, Hmd.
  destruct (decide (Some md = Some model)) as [[= ->]|Hne].
  - rewrite last_cons. destruct (last (filter _ lines)); [done|].
    by rewrite lookup_insert_eq.
  - destruct (last (filter _ lines)); [done|].
    rewrite lookup_insert_ne; [done|congruence].
Qed.

Lemma elem_of_brands_of lines b :
  b ∈ brands_of lines ↔ ∃ line, line ∈ lines ∧ line !! "maker" = Some b.
Proof. unfold brands_of. by rewrite elem_of_list_to_set, list_elem_of_omap. Qed.

Lemma index_of_lookup lines model :
  Forall line_ok lines → index_of lines !! model = last_maker_of model lines.
Proof.
  intros H. unfold index_of, last_maker_of.
  rewrite foldl_index_step_lookup by done.
  by destruct (last (filter _ lines)).
Qed.

(** C6: for every table whose rows have the columns [maker] and [model],
    the loading loop of [guess_car_brand] ends with an index that maps each
    model name to the maker of the last row bearing that name, and with a
    set of brands that holds exactly the makers of the rows. *)
Theorem load_loop_last_row_wins lines w :
  Forall line_ok lines →
  ∃ brands pairs,
    load_loop lines ∅ ∅ w = (Ret (brands, pairs), w)
    ∧ (∀ model, pairs !! model = last_maker_of model lines)
    ∧ (∀ b, b ∈ brands ↔ ∃ line, line ∈ lines ∧ line !! "maker" = Some b).
Proof.
  intros H. exists (brands_of lines), (index_of lines). split_and!.
  - by rewrite load_loop_eq, (left_id_L ∅ (∪)).
  - intros model. by apply index_of_lookup.
  - apply elem_of_brands_of.
Qed.

End load.

(** ** The random source *)

Section random.
Context {A : Type} `{Inhabited A}.
Implicit Types (w : world) (x pool population : list A).

Lemma set_rng_same w : set_rng (rng w) w = w.
Proof. by destruct w. Qed.

Lemma randbelow_eq n w :
  ∃ j g, Random.randbelow n w = (Ret j, set_rng g w) ∧ (0 < n → j < n).
Proof.
  unfold Random.randbelow. destruct (rng w) as [|r g] eqn:Hg.
  - exists 0, []. by rewrite <-Hg, set_rng_same.
  - exists (r mod n), g. split; [done|]. intros Hn. apply Nat.mod_upper_bound. lia.
Qed.

Lemma choice_eq (seq : list A) w :
  seq ≠ [] →
  ∃ a g, Random.choice seq w = (Ret a, set_rng g w) ∧ a ∈ seq.
Proof.
  intros Hs. destruct seq as [|a0 seq]; [done|]. unfold Random.choice.
  destruct (randbelow_eq (length (a0 :: seq)) w) as (j & g & Hj & Hlt).
  exists ((a0 :: seq) !!! j), g. erewrite bind_Ret; last exact Hj.
  split; [done|]. apply list_elem_of_lookup_total_2, Hlt. simpl. lia.
Qed.

(** one turn of the selection loop takes an element out of the pool *)
Lemma pool_take j pool :
  j < length pool →
  pool ≡ₚ pool !!! j
          :: take (length pool - 1) (<[j := pool !!! (length pool - 1)]> pool).
Proof.
  intros Hj. destruct (decide (pool = [])) as [->|Hne]; [simpl in Hj; lia|].
  destruct (exists_last Hne) as (init & z & ->).
  rewrite length_app. simpl.
  replace (length init + 1 - 1) with (length init) by lia.
  rewrite (lookup_total_app_r init [z] (length init)) by lia.
  replace (length init - length init) with 0 by lia. simpl.
  rewrite length_app in Hj. simpl in Hj.
  destruct (decide (j = length init)) as [->|Hne'].
  - rewrite (lookup_total_app_r init [z] (length init)) by lia.
    replace (length init - length init) with 0 by lia. simpl.
    rewrite take_insert_ge, take_app_length by lia.
    by rewrite Permutation_app_comm.
  - assert (j < length init) as Hlt by lia.
    rewrite lookup_total_app_l, insert_app_l by done.
    rewrite take_app_length' by by rewrite length_insert.
    destruct (lookup_lt_is_Some_2 init j Hlt) as [a Ha].
    rewrite (list_lookup_total_correct _ _ _ Ha).
    rewrite insert_take_drop by done.
    rewrite <-(take_drop_middle init j a Ha) at 1.
    rewrite <-!Permutation_middle. simpl. rewrite app_nil_r. apply perm_swap.
Qed.

Lemma sample_loop_eq k pool w :
  k ≤ length pool →
  ∃ s g rest, Random.sample_loop k pool w = (Ret s, set_rng g w)
              ∧ length s = k ∧ pool ≡ₚ s ++ rest.
Proof.
  revert pool w. induction k as [|k IH]; intros pool w Hk; simpl.
  - exists [], (rng w), pool. by rewrite set_rng_same.
  - destruct (randbelow_eq (length pool) w) as (j & g & Hj & Hlt).
    specialize (Hlt ltac:(lia)).
    erewrite bind_Ret; last exact Hj.
    pose proof (pool_take j pool Hlt) as Hperm.
    set (pool' := take _ _) in *.
    destruct (IH pool' (set_rng g w)) as (s & g' & rest & Hs & Hlen & Hp).
    { apply Permutation_length in Hperm. simpl in Hperm. lia. }
    erewrite bind_Ret; last exact Hs.
    exists (pool !!! j :: s), g', rest. split_and!; [done|simpl; lia|].
    etrans; [exact Hperm|]. simpl. by apply perm_skip.
Qed.

Lemma sample_eq population k w :
  k ≤ length population →
  ∃ s g rest, Random.sample population k w = (Ret s, set_rng g w)
              ∧ length s = k ∧ population ≡ₚ s ++ rest.
Proof.
  intros Hk. unfold Random.sample. rewrite decide_True by done.
  by apply sample_loop_eq.
Qed.

Lemma sample_short population k w :
  length population < k →
  Random.sample population k w = (Raise ValueError, w).
Proof. intros Hk. unfold Random.sample. rewrite decide_False by lia. done. Qed.

Lemma swap_Permutation i j x :
  i < length x → j < length x → Random.swap i j x ≡ₚ x.
Proof.
  intros Hi Hj. unfold Random.swap.
  destruct (lookup_lt_is_Some_2 x i Hi) as [a Ha].
  destruct (lookup_lt_is_Some_2 x j Hj) as [b Hb].
  rewrite (list_lookup_total_correct _ _ _ Ha), (list_lookup_total_correct _ _ _ Hb).
  destruct (decide (i = j)) as [->|Hne].
  - assert (a = b) as -> by congruence.
    by rewrite (list_insert_id x j b Hb), (list_insert_id x j b Hb).
  - assert (<[i:=b]> x !! j = Some b) as Hb'
      by by rewrite list_lookup_insert_ne.
    assert (<[i:=b]> x !! i = Some b) as Hi'
      by by rewrite list_lookup_insert_eq.
    pose proof (delete_Permutation _ _ _ Hb') as P1.
    pose proof (delete_Permutation _ _ _ Ha) as P2.
    assert (<[i:=b]> x ≡ₚ b :: delete i x) as P3.
    { rewrite insert_take_drop, delete_take_drop by done.
      by rewrite <-Permutation_middle. }
    assert (<[j:=a]> (<[i:=b]> x) ≡ₚ a :: delete j (<[i:=b]> x)) as P4.
    { rewrite insert_take_drop, delete_take_drop by by rewrite length_insert.
      by rewrite <-Permutation_middle. }
    etrans; [exact P4|]. etrans; [|symmetry; exact P2]. apply perm_skip.
    apply (Permutation_cons_inv (a := b)).
    etrans; [symmetry; exact P1|exact P3].
Qed.

Lemma shuffle_loop_eq i x w :
  i < length x ∨ i = 0 →
  ∃ y g, Random.shuffle_loop i x w = (Ret y, set_rng g w) ∧ y ≡ₚ x.
Proof.
  revert x w. induction i as [|i IH]; intros x w Hi; simpl.
  - exists x, (rng w). by rewrite set_rng_same.
  - destruct Hi as [Hi|?]; [|done].
    destruct (randbelow_eq (S (S i)) w) as (j & g & Hj & Hlt).
    specialize (Hlt ltac:(lia)).
    erewrite bind_Ret; last exact Hj.
    pose proof (swap_Permutation (S i) j x ltac:(lia) ltac:(lia)) as Hperm.
    destruct (IH (Random.swap (S i) j x) (set_rng g w)) as (y & g' & Hy & Hp).
    { left. apply Permutation_length in Hperm. lia. }
    exists y, g'. split; [done|]. by rewrite Hp.
Qed.

Lemma shuffle_eq x w :
  ∃ y g, Random.shuffle x w = (Ret y, set_rng g w) ∧ y ≡ₚ x.
Proof.
  unfold Random.shuffle. apply shuffle_loop_eq.
  destruct x; simpl; [by right|left; lia].
Qed.

End random.

(** ** The quiz *)

Arguments PyStr.contains : simpl never.

Section quiz.
Implicit Types (w : world) (brands : gset string) (pairs : gmap string string)
  (lines : list string) (evs : list event).

Lemma guess_car_brand_eq data_file w :
  guess_car_brand data_file w
  = (found ← os_path_exists (store_path w);
     (if found : bool then mret tt else extract_maker_model_codes (store_path w));;
     run_quiz (store_path w)) w.
Proof. reflexivity. Qed.

Lemma guess_car_brand_store data_file w f :
  files w !! store_path w = Some f →
  guess_car_brand data_file w = run_quiz (store_path w) w.
Proof.
  intros Hf. rewrite guess_car_brand_eq.
  erewrite bind_Ret; last reflexivity.
  rewrite bool_decide_eq_true_2 by by rewrite Hf.
  by erewrite bind_Ret; last reflexivity.
Qed.

Lemma draws_app evs1 evs2 : draws (evs1 ++ evs2) = draws evs1 ++ draws evs2.
Proof. apply omap_app. Qed.

Lemma answers_app evs1 evs2 : answers (evs1 ++ evs2) = answers evs1 ++ answers evs2.
Proof. apply omap_app. Qed.

Lemma draws_prints evs : Forall is_print evs → draws evs = [].
Proof. induction 1 as [|[] ? []]; by simpl. Qed.

Lemma answers_prints evs : Forall is_print evs → answers evs = [].
Proof. induction 1 as [|[] ? []]; by simpl. Qed.

(** the wait for a choice: an invalid line is answered with the notice and
    the prompt comes again *)
Lemma wait_valid_choice_reprompt w bad lines :
  stdin w = bad :: lines → valid_line bad = false →
  wait_valid_choice "ABCD" w
  = wait_valid_choice "ABCD"
      (log (EvPrint ("please pick a valid choice" +:+ PyStr.newline))
         (set_stdin lines (log (EvPrint "> ") w))).
Proof.
  intros Hw Hb. unfold wait_valid_choice. rewrite Hw. simpl.
  unfold input. simpl. rewrite Hw. unfold valid_line in Hb. by rewrite Hb.
Qed.

Lemma wait_valid_choice_accept w good lines :
  stdin w = good :: lines → valid_line good = true →
  wait_valid_choice "ABCD" w
  = (Ret (PyStr.upper good), set_stdin lines (log (EvPrint "> ") w)).
Proof.
  intros Hw Hb. unfold wait_valid_choice. rewrite Hw. simpl.
  unfold input. simpl. rewrite Hw. unfold valid_line in Hb. by rewrite Hb.
Qed.

Lemma wait_valid_choice_eof w :
  stdin w = [] →
  wait_valid_choice "ABCD" w = (Raise EOFError, log (EvPrint "> ") w).
Proof.
  intros Hw. unfold wait_valid_choice. rewrite Hw. simpl.
  unfold input. simpl. by rewrite Hw.
Qed.

Lemma wait_valid_choice_eq w good more :
  filter valid_line (stdin w) = good :: more →
  ∃ w' evs,
    wait_valid_choice "ABCD" w = (Ret (PyStr.upper good), w')
    ∧ trace w' = trace w ++ evs ∧ Forall is_print evs
    ∧ filter valid_line (stdin w') = more.
Proof.
  remember (stdin w) as lines eqn:Hl. revert w Hl.
  induction lines as [|line lines IH]; intros w Hl Hf; [done|].
  rewrite filter_cons in Hf. destruct (decide (valid_line line)) as [Hv|Hv].
  - injection Hf as -> <-. apply Is_true_true in Hv.
    rewrite (wait_valid_choice_accept w good lines) by done.
    eexists _, [EvPrint "> "]. split_and!; [done|done| |done].
    by apply Forall_cons.
  - apply Is_true_false in Hv.
    rewrite (wait_valid_choice_reprompt w line lines) by done.
    edestruct IH as (w' & evs & -> & Ht & Hp & Hs); [|exact Hf|]; [done|].
    eexists w', (_ :: _ :: evs). split_and!; [done| | |done].
    + rewrite Ht. simpl. by rewrite <-!app_assoc.
    + by do 2 (apply Forall_cons; split; [done|]).
Qed.

Lemma trace_log e w : trace (log e w) = trace w ++ [e].
Proof. reflexivity. Qed.

Lemma judged_right (d : list (string * string)) (brand user_choice : string) :
  bool_decide (is_Some (ODict.get d user_choice))
  && bool_decide (ODict.get d user_choice = Some brand) = true
  ↔ right_answer (d, brand, user_choice).
Proof.
  unfold right_answer. simpl. rewrite andb_true_iff, !bool_decide_eq_true.
  split; [by intros [_ ?]|]. intros ->. by split; [eexists|].
Qed.


Lemma question_loop_round qn nc w brands pairs good more :
  3 ≤ size brands → pairs ≠ ∅ →
  filter valid_line (stdin w) = good :: more →
  ∃ nc1 w1 evs d brand,
    (∀ count, question_loop (S count) qn nc 4 "ABCD" brands pairs w
              = question_loop count (qn + 1) nc1 4 "ABCD" brands pairs w1)
    ∧ trace w1 = trace w ++ evs
    ∧ length (draws evs) = 1
    ∧ answers evs = [(d, brand, PyStr.upper good)]
    ∧ nc1 = nc + score evs
    ∧ filter valid_line (stdin w1) = more.
Proof.
  intros Hb Hp Hf.
  destruct (choice_eq (map_to_list pairs) w) as ([model brand] & g1 & Hch & Hin).
  { by rewrite map_to_list_empty_iff. }
  set (q := EvPrint ((pretty (qn + 1) +:+ ". What is the brand of " +:+ model
             +:+ "? (choose one from " +:+ "A" +:+ " to " +:+ "D" +:+ ")")
             +:+ PyStr.newline)).
  set (w2 := log q (set_rng g1 w)).
  destruct (sample_eq (elements brands) 3 w2) as (s & g2 & rest & Hs & Hlen & _);
    [exact Hb|].
  destruct (shuffle_eq (s ++ [brand]) (set_rng g2 w2)) as (choices & g3 & Hsh & Hperm).
  assert (length choices = 4) as Hlc.
  { apply Permutation_length in Hperm. rewrite length_app in Hperm. simpl in Hperm. lia. }
  destruct choices as [|c1 [|c2 [|c3 [|c4 [|]]]]]; try discriminate Hlc. clear Hlc.
  set (d := [("A", c1); ("B", c2); ("C", c3); ("D", c4)]).
  set (w5 := log (EvPrint ("" +:+ PyStr.newline))
              (log (EvPrint (("D" +:+ ". " +:+ c4 +:+ "  ") +:+ ""))
              (log (EvPrint (("C" +:+ ". " +:+ c3 +:+ "  ") +:+ ""))
              (log (EvPrint (("B" +:+ ". " +:+ c2 +:+ "  ") +:+ ""))
              (log (EvPrint (("A" +:+ ". " +:+ c1 +:+ "  ") +:+ ""))
              (log (EvDraw model brand s [c1; c2; c3; c4])
                 (set_rng g3 (set_rng g2 w2)))))))).
  destruct (wait_valid_choice_eq w5 good more Hf) as (w6 & evs6 & Hw & Ht6 & Hp6 & Hs6).
  set (w7 := log (EvAnswer d brand (PyStr.upper good)) w6).
  set (judge := (if bool_decide (is_Some (ODict.get d (PyStr.upper good)))
                    && bool_decide (ODict.get d (PyStr.upper good) = Some brand)
                 then print "correct!";; mret (nc + 1)
                 else print "wrong!";;
                      print (model +:+ " belongs to " +:+ brand +:+ "!");;
                      mret nc) : M nat).
  assert (∀ count nc1 w1,
    judge w7 = (Ret nc1, w1) →
    question_loop (S count) qn nc 4 "ABCD" brands pairs w
    = question_loop count (qn + 1) nc1 4 "ABCD" brands pairs w1) as Hstep.
  { intros count nc1 w1 Hk. cbn [question_loop].
    erewrite bind_Ret; last exact Hch. cbv beta iota.
    erewrite bind_Ret; last reflexivity.
    erewrite bind_Ret; last reflexivity.
    erewrite bind_Ret; last reflexivity.
    erewrite bind_Ret; last exact Hs.
    erewrite bind_Ret; last exact Hsh.
    erewrite bind_Ret; last reflexivity.
    erewrite bind_Ret; last reflexivity.
    erewrite bind_Ret; last reflexivity.
    erewrite bind_Ret; last exact Hw.
    erewrite bind_Ret; last reflexivity.
    change (ODict.of_pairs (zip (PyStr.chars "ABCD") [c1; c2; c3; c4])) with d.
    fold w7. by erewrite bind_Ret; last exact Hk. }
  assert (trace w7 = trace w
            ++ ([q; EvDraw model brand s [c1; c2; c3; c4];
                 EvPrint (("A" +:+ ". " +:+ c1 +:+ "  ") +:+ "");
                 EvPrint (("B" +:+ ". " +:+ c2 +:+ "  ") +:+ "");
                 EvPrint (("C" +:+ ". " +:+ c3 +:+ "  ") +:+ "");
                 EvPrint (("D" +:+ ". " +:+ c4 +:+ "  ") +:+ "");
                 EvPrint ("" +:+ PyStr.newline)]
                ++ evs6 ++ [EvAnswer d brand (PyStr.upper good)])) as Ht7.
  { unfold w7. simpl. rewrite Ht6. unfold w5, w2. simpl. by rewrite <-!app_assoc. }
  assert (∀ tail, Forall is_print tail →
    length (draws (([q; EvDraw model brand s [c1; c2; c3; c4];
                 EvPrint (("A" +:+ ". " +:+ c1 +:+ "  ") +:+ "");
                 EvPrint (("B" +:+ ". " +:+ c2 +:+ "  ") +:+ "");
                 EvPrint (("C" +:+ ". " +:+ c3 +:+ "  ") +:+ "");
                 EvPrint (("D" +:+ ". " +:+ c4 +:+ "  ") +:+ "");
                 EvPrint ("" +:+ PyStr.newline)]
                ++ evs6 ++ [EvAnswer d brand (PyStr.upper good)]) ++ tail)) = 1
    ∧ answers (([q; EvDraw model brand s [c1; c2; c3; c4];
                 EvPrint (("A" +:+ ". " +:+ c1 +:+ "  ") +:+ "");
                 EvPrint (("B" +:+ ". " +:+ c2 +:+ "  ") +:+ "");
                 EvPrint (("C" +:+ ". " +:+ c3 +:+ "  ") +:+ "");
                 EvPrint (("D" +:+ ". " +:+ c4 +:+ "  ") +:+ "");
                 EvPrint ("" +:+ PyStr.newline)]
                ++ evs6 ++ [EvAnswer d brand (PyStr.upper good)]) ++ tail)
      = [(d, brand, PyStr.upper good)]) as Hevs.
  { intros tail Htail. rewrite !draws_app, !answers_app.
    rewrite (draws_prints evs6), (answers_prints evs6) by done.
    rewrite (draws_prints tail), (answers_prints tail) by done. done. }
  set (round := [q; EvDraw model brand s [c1; c2; c3; c4];
                 EvPrint (("A" +:+ ". " +:+ c1 +:+ "  ") +:+ "");
                 EvPrint (("B" +:+ ". " +:+ c2 +:+ "  ") +:+ "");
                 EvPrint (("C" +:+ ". " +:+ c3 +:+ "  ") +:+ "");
                 EvPrint (("D" +:+ ". " +:+ c4 +:+ "  ") +:+ "");
                 EvPrint ("" +:+ PyStr.newline)]
                ++ evs6 ++ [EvAnswer d brand (PyStr.upper good)]) in *.
  destruct (decide (right_answer (d, brand, PyStr.upper good))) as [Hr|Hr].
  - pose proof (proj2 (judged_right d brand (PyStr.upper good)) Hr) as Hj.
    destruct (Hevs [EvPrint ("correct!" +:+ PyStr.newline)]) as [Hd Ha].
    { by apply Forall_cons. }
    eexists (nc + 1), (log (EvPrint ("correct!" +:+ PyStr.newline)) w7),
      (round ++ [EvPrint ("correct!" +:+ PyStr.newline)]), d, brand.
    split_and!; [|by rewrite !trace_log, Ht7, <-!app_assoc|exact Hd|exact Ha| |].
    + intros count. eapply Hstep. unfold judge. rewrite Hj. reflexivity.
    + unfold score. rewrite Ha. by rewrite filter_cons_True.
    + exact Hs6.
  - assert (bool_decide (is_Some (ODict.get d (PyStr.upper good)))
            && bool_decide (ODict.get d (PyStr.upper good) = Some brand) = false) as Hj.
    { apply not_true_is_false. by rewrite judged_right. }
    destruct (Hevs [EvPrint ("wrong!" +:+ PyStr.newline);
                    EvPrint ((model +:+ " belongs to " +:+ brand +:+ "!")
                             +:+ PyStr.newline)]) as [Hd Ha].
    { by do 2 (apply Forall_cons; split; [done|]). }
    eexists nc, (log (EvPrint ((model +:+ " belongs to " +:+ brand +:+ "!")
                               +:+ PyStr.newline))
                   (log (EvPrint ("wrong!" +:+ PyStr.newline)) w7)),
      (round ++ [EvPrint ("wrong!" +:+ PyStr.newline);
                 EvPrint ((model +:+ " belongs to " +:+ brand +:+ "!")
                          +:+ PyStr.newline)]), d, brand.
    split_and!; [|by rewrite !trace_log, Ht7, <-!app_assoc|exact Hd|exact Ha| |].
    + intros count. eapply Hstep. unfold judge. rewrite Hj. reflexivity.
    + unfold score. rewrite Ha. rewrite filter_cons_False by done. simpl. lia.
    + exact Hs6.
Qed.


Lemma index_of_nonempty (rows : list (gmap string string)) :
  Forall line_ok rows → rows ≠ [] → index_of rows ≠ ∅.
Proof.
  intros Hok Hne. destruct (exists_last Hne) as (init & line & ->).
  pose proof Hok as Hok'. apply Forall_app in Hok' as [_ Hl].
  apply Forall_singleton in Hl as [[maker Hmk] [model Hmd]].
  intros He. assert (index_of (init ++ [line]) !! model = Some maker) as Hi.
  { rewrite index_of_lookup by done. unfold last_maker_of.
    rewrite filter_app, filter_cons_True, filter_nil by done.
    by rewrite last_snoc. }
  by rewrite He, lookup_empty in Hi.
Qed.

Lemma brands_of_nil : brands_of [] = ∅.
Proof. reflexivity. Qed.

Lemma run_quiz_store w h (rows : list (gmap string string)) :
  files w !! store_path w = Some (CsvFile h rows) →
  Forall line_ok rows →
  run_quiz (store_path w) w
  = (num_correct ← question_loop 10 0 0 4 "ABCD" (brands_of rows) (index_of rows);
     print ("Score " +:+ pretty num_correct +:+ "/" +:+ pretty 10)) w.
Proof.
  intros Hf Hok. unfold run_quiz.
  erewrite bind_Ret; last by (unfold csv_read; rewrite Hf).
  erewrite bind_Ret; last by apply load_loop_eq.
  by rewrite (left_id_L ∅ (∪)).
Qed.





End quiz.

(** ** What every run of the quiz keeps *)

Section safety.
Context (brands : gset string) (pairs : gmap string string).
Context (I : world → Prop) (E : exn → Prop).
Context (I_rng : ∀ w g, I w → I (set_rng g w)).
Context (I_stdin : ∀ w l, I w → I (set_stdin l w)).
Context (I_print : ∀ w text, I w → I (log (EvPrint text) w)).
Context (I_answer : ∀ w d brand user_choice,
           I w → I (log (EvAnswer d brand user_choice) w)).
Context (I_draw : ∀ w model brand sample choices,
           draw_ok brands pairs (EvDraw model brand sample choices) →
           I w → I (log (EvDraw model brand sample choices) w)).
Context (E_index : E IndexError) (E_eof : E EOFError).
Context (E_value : size brands < 3 → E ValueError).

Lemma safe_ret {A} (a : A) (Q : A → Prop) : Q a → safe I E (mret a) Q.
Proof. by intros HQ w HI. Qed.

Lemma safe_bind {A B} (m : M A) (k : A → M B) (Q : A → Prop) (R : B → Prop) :
  safe I E m Q → (∀ a, Q a → safe I E (k a) R) → safe I E (m ≫= k) R.
Proof.
  intros Hm Hk w HI. specialize (Hm w HI). unfold mbind, M_bind.
  destruct (m w) as [[a|e|n] w']; [|done..].
  destruct Hm as [HI' HQ]. by apply Hk.
Qed.

Lemma safe_weaken {A} (m : M A) (Q R : A → Prop) :
  safe I E m Q → (∀ a, Q a → R a) → safe I E m R.
Proof.
  intros Hm HQR w HI. specialize (Hm w HI).
  destruct (m w) as [[a|e|n] w']; [|done..]. destruct Hm. split; auto.
Qed.

(** a call that only draws random numbers *)
Lemma safe_random {A} (m : M A) (Q : A → Prop) :
  (∀ w, ∃ a g, m w = (Ret a, set_rng g w) ∧ Q a) → safe I E m Q.
Proof. intros Hm w HI. destruct (Hm w) as (a & g & -> & HQ). split; auto. Qed.

Lemma safe_emit e :
  (∀ w, I w → I (log e w)) → safe I E (emit e) (λ _, True).
Proof. intros He w HI. simpl. split; [by apply He|done]. Qed.

Lemma safe_print_end text end_ : safe I E (print_end text end_) (λ _, True).
Proof. intros w HI. simpl. split; [by apply I_print|done]. Qed.

Lemma safe_print text : safe I E (print text) (λ _, True).
Proof. apply safe_print_end. Qed.

Lemma safe_choice (seq : list (string * string)) :
  safe I E (Random.choice seq) (λ a, a ∈ seq).
Proof.
  destruct (decide (seq = [])) as [->|Hne].
  - intros w HI. simpl. by split.
  - apply safe_random. intros w.
    destruct (choice_eq seq w Hne) as (a & g & ? & ?). by exists a, g.
Qed.

Lemma safe_sample (population : list string) k :
  (length population < k → E ValueError) →
  safe I E (Random.sample population k)
    (λ s, length s = k ∧ ∃ rest, population ≡ₚ s ++ rest).
Proof.
  intros HE. destruct (decide (k ≤ length population)) as [Hk|Hk].
  - apply safe_random. intros w.
    destruct (sample_eq population k w Hk) as (s & g & rest & ? & ? & ?).
    exists s, g. split_and!; [done..|]. by exists rest.
  - intros w HI. rewrite sample_short by lia. split; [done|]. apply HE. lia.
Qed.

Lemma safe_shuffle (x : list string) :
  safe I E (Random.shuffle x) (λ y, y ≡ₚ x).
Proof.
  apply safe_random. intros w. destruct (shuffle_eq x w) as (y & g & ? & ?).
  by exists y, g.
Qed.

Lemma safe_for_each {A} (l : list A) (body : A → M unit) :
  (∀ a, safe I E (body a) (λ _, True)) → safe I E (for_each l body) (λ _, True).
Proof.
  intros Hb. induction l as [|a l IH]; simpl.
  - by apply safe_ret.
  - eapply safe_bind; [apply Hb|]. by intros _ _.
Qed.

Lemma safe_input_loop letters lines w :
  I w →
  match input_loop letters lines w with
  | (Ret _, w') => I w'
  | (Raise e, w') => I w' ∧ E e
  | (SysExit _, w') => I w'
  end.
Proof.
  revert w. induction lines as [|line lines IH]; intros w HI; simpl.
  - unfold input. simpl. destruct (stdin w); [by split; [apply I_print|]|].
    by apply I_stdin, I_print.
  - unfold input. simpl. destruct (stdin w) as [|l ls]; [by split; [apply I_print|]|].
    destruct (PyStr.contains letters (PyStr.upper l)).
    + by apply I_stdin, I_print.
    + by apply IH, I_print, I_stdin, I_print.
Qed.

Lemma safe_wait_valid_choice letters :
  safe I E (wait_valid_choice letters) (λ _, True).
Proof.
  intros w HI. unfold wait_valid_choice.
  pose proof (safe_input_loop letters (stdin w) w HI) as Hl.
  by destruct (input_loop letters (stdin w) w) as [[a|e|n] w'].
Qed.

Lemma safe_str_first s : safe I E (str_first s) (λ _, True).
Proof. unfold str_first. destruct (PyStr.head s); by intros w HI. Qed.

Lemma safe_str_last s : safe I E (str_last s) (λ _, True).
Proof. unfold str_last. destruct (PyStr.last_char s); by intros w HI. Qed.

Lemma sample_draw_ok model brand sample choices :
  (model, brand) ∈ map_to_list pairs →
  length sample = 3 →
  (∃ rest, elements brands ≡ₚ sample ++ rest) →
  choices ≡ₚ sample ++ [brand] →
  draw_ok brands pairs (EvDraw model brand sample choices).
Proof.
  intros Hin Hlen [rest Hperm] Hch. simpl.
  assert (NoDup (sample ++ rest)) as Hnd.
  { rewrite <-Hperm. apply NoDup_elements. }
  apply NoDup_app in Hnd as (Hnd & _ & _).
  split_and!; [by apply elem_of_map_to_list|done|done| |done|].
  - intros b Hb. apply elem_of_elements. rewrite Hperm. apply elem_of_app. by left.
  - rewrite Hch, NoDup_app. split.
    + intros (_ & Hx & _) Hb. apply (Hx brand Hb). by apply list_elem_of_singleton.
    + intros Hb. split_and!; [done| |apply NoDup_singleton].
      intros x Hx ->%list_elem_of_singleton. done.
Qed.

Lemma safe_question_loop count qn nc :
  safe I E (question_loop count qn nc 4 "ABCD" brands pairs) (λ _, True).
Proof.
  revert qn nc. induction count as [|count IH]; intros qn nc; cbn [question_loop].
  { by apply safe_ret. }
  eapply safe_bind; [apply safe_choice|]. intros [model brand] Hin.
  eapply safe_bind; [apply safe_str_first|]. intros first _.
  eapply safe_bind; [apply safe_str_last|]. intros last _.
  eapply safe_bind; [apply safe_print|]. intros _ _.
  eapply safe_bind; [apply safe_sample|].
  { intros Hlt. apply E_value. exact Hlt. }
  intros sample [Hlen Hrest].
  eapply safe_bind; [apply safe_shuffle|]. intros choices Hch.
  eapply safe_bind.
  { apply safe_emit. intros w HI. apply I_draw; [|done]. by apply sample_draw_ok. }
  intros _ _.
  eapply safe_bind.
  { apply safe_for_each. intros [letter choice]. apply safe_print_end. }
  intros _ _.
  eapply safe_bind; [apply safe_print|]. intros _ _.
  eapply safe_bind; [apply safe_wait_valid_choice|]. intros user_choice _.
  eapply safe_bind.
  { apply safe_emit. intros w HI. by apply I_answer. }
  intros _ _.
  eapply (safe_bind _ _ (λ _, True)); [|intros num_correct _; apply IH].
  destruct (_ && _).
  - eapply safe_bind; [apply safe_print|]. intros _ _. by apply safe_ret.
  - eapply safe_bind; [apply safe_print|]. intros _ _.
    eapply safe_bind; [apply safe_print|]. intros _ _. by apply safe_ret.
Qed.

End safety.

(** ** Whole sessions *)

Section session.
Implicit Types (w : world) (rows : list (gmap string string)).

Lemma store_path_written csv_name header rows w :
  store_path (written csv_name header rows w) = store_path w.
Proof. reflexivity. Qed.

(** the bootstrap leaves the table in place and draws nothing *)
Lemma guess_car_brand_ready data_file w rows :
  store_ready w rows →
  ∃ w1 h evs0,
    guess_car_brand data_file w = run_quiz (store_path w1) w1
    ∧ files w1 !! store_path w1 = Some (CsvFile h rows)
    ∧ trace w1 = trace w ++ evs0
    ∧ stdin w1 = stdin w
    ∧ draws evs0 = [] ∧ answers evs0 = []
    ∧ ∀ brands pairs, Forall (draw_ok brands pairs) evs0.
Proof.
  intros [[h Hf]|(Hf & data & Hj & Hn & ->)].
  - exists w, h, []. rewrite (guess_car_brand_store _ _ _ Hf), app_nil_r.
    split_and!; [done..|]. by intros.
  - exists (written (store_path w) csv_header (expected_rows data) w), csv_header,
      [EvOpenW (store_path w);
       EvPrint (("Writing " +:+ pretty (length (expected_rows data))
                 +:+ " cars information to " +:+ store_path w) +:+ PyStr.newline)].
    split_and!; [|simpl; apply lookup_insert_eq|simpl; by rewrite <-app_assoc|done..|].
    + rewrite guess_car_brand_eq.
      erewrite bind_Ret; last reflexivity.
      rewrite bool_decide_eq_false_2 by (rewrite Hf; by intros [? ?]).
      erewrite bind_Ret; last first.
      { rewrite (extract_named _ _ data Hj Hn). by apply write_cars_to_csv_fresh. }
      done.
    + intros. by repeat constructor.
Qed.

(** C9: the argument [data_file] has no influence: two calls that differ
    in it alone end with the same outcome in the same world. *)
Theorem guess_car_brand_ignores_data_file (data_file1 data_file2 : string) w :
  guess_car_brand data_file1 w = guess_car_brand data_file2 w.
Proof. reflexivity. Qed.


(** C1, as the code has it: in every round the three brands sampled are
    distinct members of the set of brands, which may include the correct
    brand of the round; with the correct brand appended and the four
    shuffled, the choices are free of duplicates exactly when the sample
    did not contain the correct brand. *)
Theorem guess_car_brand_choices data_file w rows :
  store_ready w rows →
  Forall (draw_ok (brands_of rows) (index_of rows)) (trace w) →
  Forall (draw_ok (brands_of rows) (index_of rows))
    (trace (guess_car_brand data_file w).2).
Proof.
  intros Hr HI.
  destruct (guess_car_brand_ready data_file w rows Hr)
    as (w1 & h & evs0 & -> & Hf & Ht0 & _ & _ & _ & Hev).
  assert (Forall (draw_ok (brands_of rows) (index_of rows)) (trace w1)) as HI1.
  { rewrite Ht0. apply Forall_app. by split. }
  destruct (decide (Forall line_ok rows)) as [Hok|Hok].
  - rewrite (run_quiz_store _ _ _ Hf Hok).
    set (I := λ w, Forall (draw_ok (brands_of rows) (index_of rows)) (trace w)).
    assert (safe I (λ _, True)
              (num_correct ← question_loop 10 0 0 4 "ABCD" (brands_of rows) (index_of rows);
               print ("Score " +:+ pretty num_correct +:+ "/" +:+ pretty 10))
              (λ _, True)) as Hsafe.
    { eapply safe_bind.
      - apply (safe_question_loop (brands_of rows) (index_of rows) I (λ _, True));
          unfold I; try done.
        + intros w0 text Hw. rewrite trace_log. apply Forall_app. by split; [|constructor].
        + intros w0 d b u Hw. rewrite trace_log. apply Forall_app. by split; [|constructor].
        + intros w0 model brand sample choices Hd Hw. rewrite trace_log.
          apply Forall_app. by split; [|constructor].
      - intros nc _. apply safe_print. unfold I. intros w0 text Hw. rewrite trace_log.
        apply Forall_app. by split; [|constructor]. }
    specialize (Hsafe w1 HI1).
    destruct (@mbind M _ _ _ _ _ w1) as [[a|e|n] w2]; simpl; tauto.
  - unfold run_quiz.
    erewrite bind_Ret; last by (unfold csv_read; rewrite Hf).
    destruct (load_loop_key_error rows ∅ ∅ w1 Hok) as [key Hk].
    by erewrite bind_Raise; last exact Hk.
Qed.

(** C3, as the code has it: with a table that is not empty and names
    fewer than three makers, the sampling step of the first round raises
    [ValueError], which ends the call; with three makers or more the
    sampling step returns a sample and no call ends in [ValueError]. *)
Theorem guess_car_brand_sample_needs_three data_file w rows :
  store_ready w rows →
  Forall line_ok rows →
  (rows ≠ [] → size (brands_of rows) < 3 →
   ∃ w', guess_car_brand data_file w = (Raise ValueError, w')
         ∧ draws (trace w') = draws (trace w))
  ∧ (3 ≤ size (brands_of rows) →
     (guess_car_brand data_file w).1 ≠ Raise ValueError
     ∧ ∀ w1, ∃ sample w2,
         Random.sample (elements (brands_of rows)) 3 w1 = (Ret sample, w2)).
Proof.
  intros Hr Hok.
  destruct (guess_car_brand_ready data_file w rows Hr)
    as (w1 & h & evs0 & -> & Hf & Ht0 & _ & Hd0 & _ & _).
  rewrite (run_quiz_store _ _ _ Hf Hok). split.
  - intros Hne Hb.
    destruct (choice_eq (map_to_list (index_of rows)) w1) as ([model brand] & g1 & Hch & _).
    { rewrite map_to_list_empty_iff. by apply index_of_nonempty. }
    eexists. split.
    + erewrite bind_Raise; first done. cbn [question_loop].
      erewrite bind_Ret; last exact Hch. cbv beta iota.
      erewrite bind_Ret; last reflexivity.
      erewrite bind_Ret; last reflexivity.
      erewrite bind_Ret; last reflexivity.
      erewrite bind_Raise; first done.
      apply sample_short. exact Hb.
    + rewrite trace_log. simpl. rewrite Ht0, !draws_app, Hd0. simpl.
      by rewrite !app_nil_r.
  - intros Hb. split.
    + assert (safe (λ _, True) (λ e, e ≠ ValueError)
              (num_correct ← question_loop 10 0 0 4 "ABCD" (brands_of rows) (index_of rows);
               print ("Score " +:+ pretty num_correct +:+ "/" +:+ pretty 10))
              (λ _, True)) as Hsafe.
      { eapply safe_bind.
        - apply (safe_question_loop (brands_of rows) (index_of rows)); try done. lia.
        - intros nc _. by apply safe_print. }
      specialize (Hsafe w1 Logic.I).
      destruct (@mbind M _ _ _ _ _ w1) as [[a|e|n] w2]; simpl; [done| |done].
      intros [= ->]. by destruct Hsafe.
    + intros w0. destruct (sample_eq (elements (brands_of rows)) 3 w0 Hb)
        as (s & g & _ & Hs & _). by eexists _, _.
Qed.

End session.

(** ** The properties on concrete inputs *)

Lemma fresh_world_ready data lines numbers :
  names_present data →
  store_ready (fresh_world data lines numbers) (expected_rows data).
Proof.
  intros Hn. right. split; [reflexivity|]. exists data.
  split; [reflexivity|]. by split.
Defined.

Lemma five_makers_named : names_present five_makers.
Proof. apply (bool_decide_unpack _). vm_compute. exact Logic.I. Defined.

Lemma three_makers_named : names_present three_makers.
Proof. apply (bool_decide_unpack _). vm_compute. exact Logic.I. Defined.

(** C1, as stated, fails: with the five makers of [five_makers], the
    first round asks for the Civic of Honda, and the three brands sampled
    already contain Honda, which then stands twice among the four choices. *)
Lemma sample_may_contain_correct_brand :
  draws (trace (guess_car_brand "model_codes_carscom.csv"
                  (fresh_world five_makers ten_answers [0; 4; 0; 1])).2) !! 0
  = Some ("Civic", "Honda", ["Honda"; "Audi"; "Ford"], ["Audi"; "Ford"; "Honda"; "Honda"])
  ∧ "Honda" ∈ ["Honda"; "Audi"; "Ford"]
  ∧ ¬ NoDup ["Audi"; "Ford"; "Honda"; "Honda"].
Proof.
  split; [vm_compute; reflexivity|]. split.
  - apply list_elem_of_here.
  - intros H. apply NoDup_cons in H as [_ H]. apply NoDup_cons in H as [_ H].
    apply NoDup_cons in H as [H _]. apply H, list_elem_of_here.
Qed.

Lemma guess_car_brand_choices_witness :
  Forall (draw_ok (brands_of (expected_rows five_makers))
                  (index_of (expected_rows five_makers)))
    (trace (guess_car_brand "model_codes_carscom.csv"
              (fresh_world five_makers ten_answers [0; 4; 0; 1])).2).
Proof.
  apply (guess_car_brand_choices "model_codes_carscom.csv"
           (fresh_world five_makers ten_answers [0; 4; 0; 1])
           (expected_rows five_makers)).
  - apply fresh_world_ready, five_makers_named.
  - simpl. constructor.
Defined.

(** C3, as stated, fails: a table of three makers, fewer than four, is
    enough for the sampling step, and the session runs to its end. *)
Lemma three_makers_suffice_for_sample :
  size (brands_of (expected_rows three_makers)) < 4
  ∧ ∃ w', guess_car_brand "model_codes_carscom.csv"
            (fresh_world three_makers ten_answers [0; 1; 2]) = (Ret tt, w')
          ∧ draws (trace w') !! 0
            = Some ("Civic", "Honda", ["Toyota"; "Ford"; "Honda"],
                    ["Ford"; "Honda"; "Honda"; "Toyota"]).
Proof.
  split; [vm_compute; lia|]. eexists. split; [vm_compute; reflexivity|].
  vm_compute. reflexivity.
Qed.

Lemma guess_car_brand_sample_needs_three_witness :
  (expected_rows three_makers ≠ [] →
   size (brands_of (expected_rows three_makers)) < 3 →
   ∃ w', guess_car_brand "model_codes_carscom.csv"
           (fresh_world three_makers ten_answers [0; 1; 2]) = (Raise ValueError, w')
         ∧ draws (trace w')
           = draws (trace (fresh_world three_makers ten_answers [0; 1; 2])))
  ∧ (3 ≤ size (brands_of (expected_rows three_makers)) →
     (guess_car_brand "model_codes_carscom.csv"
        (fresh_world three_makers ten_answers [0; 1; 2])).1 ≠ Raise ValueError
     ∧ ∀ w1, ∃ sample w2,
         Random.sample (elements (brands_of (expected_rows three_makers))) 3 w1
         = (Ret sample, w2)).
Proof.
  apply (guess_car_brand_sample_needs_three "model_codes_carscom.csv"
           (fresh_world three_makers ten_answers [0; 1; 2])
           (expected_rows three_makers)).
  - apply fresh_world_ready, three_makers_named.
  - apply (bool_decide_unpack _). vm_compute. exact Logic.I.
Defined.

Lemma extract_maker_model_codes_one_row_per_pair_witness :
  ∃ w' rows,
    extract_maker_model_codes "/app/model_codes_carscom.csv"
      (fresh_world five_makers [] []) = (Ret tt, w')
    ∧ files w' !! "/app/model_codes_carscom.csv" = Some (CsvFile csv_header rows)
    ∧ length rows = sum_list (length ∘ mk_md <$> five_makers)
    ∧ rows = (five_makers ≫= λ maker, row_of maker <$> mk_md maker)
    ∧ ∀ i maker model,
        maker_model_pairs five_makers !! i = Some (maker, model) →
        ∃ row, rows !! i = Some row
               ∧ row !! "maker" = Some (PyStr.strip (mk_nm maker))
               ∧ row !! "maker code" = Some (mk_id maker)
               ∧ row !! "model" = Some (normalized_model_name (md_nm model))
               ∧ row !! "model code" = Some (md_id model).
Proof.
  apply (extract_maker_model_codes_one_row_per_pair "/app/model_codes_carscom.csv"
           (fresh_world five_makers [] []) five_makers).
  - reflexivity.
  - apply five_makers_named.
  - left. reflexivity.
Defined.

Lemma extract_maker_model_codes_normalizes_names_witness :
  ∃ w' rows,
    extract_maker_model_codes "/app/model_codes_carscom.csv"
      (fresh_world five_makers [] []) = (Ret tt, w')
    ∧ files w' !! "/app/model_codes_carscom.csv" = Some (CsvFile csv_header rows)
    ∧ Forall2 (λ row p,
        row !! "maker" = Some (PyStr.strip (mk_nm p.1))
        ∧ (∀ rest, PyStr.strip (md_nm p.2) = String "-" rest →
                   row !! "model" = Some (PyStr.lstrip rest))
        ∧ (PyStr.head (PyStr.strip (md_nm p.2)) ≠ Some "-"%char →
           row !! "model" = Some (PyStr.strip (md_nm p.2))))
      rows (maker_model_pairs five_makers)
    ∧ (∀ nm, trimmed_of nm (PyStr.strip nm))
    ∧ (∀ rest, left_trimmed_of rest (PyStr.lstrip rest)).
Proof.
  apply (extract_maker_model_codes_normalizes_names "/app/model_codes_carscom.csv"
           (fresh_world five_makers [] []) five_makers).
  - reflexivity.
  - apply five_makers_named.
  - left. reflexivity.
Defined.

Lemma extract_maker_model_codes_first_character_witness :
  ((∃ maker model, maker ∈ five_makers ∧ model ∈ mk_md maker
                   ∧ PyStr.blank (md_nm model) = true) →
   extract_maker_model_codes "/app/model_codes_carscom.csv"
     (fresh_world five_makers [] [])
   = (Raise IndexError, fresh_world five_makers [] []))
  ∧ ((∀ maker model, maker ∈ five_makers → model ∈ mk_md maker →
                     PyStr.strip (md_nm model) ≠ EmptyString) →
     extract_maker_model_codes "/app/model_codes_carscom.csv"
       (fresh_world five_makers [] [])
     = write_cars_to_csv "/app/model_codes_carscom.csv" csv_header
         (expected_rows five_makers) (fresh_world five_makers [] [])
     ∧ (extract_maker_model_codes "/app/model_codes_carscom.csv"
          (fresh_world five_makers [] [])).1 ≠ Raise IndexError)
  ∧ (∀ nm, PyStr.blank nm = true ↔ PyStr.strip nm = EmptyString).
Proof.
  apply (extract_maker_model_codes_first_character "/app/model_codes_carscom.csv"
           (fresh_world five_makers [] []) five_makers).
  reflexivity.
Defined.

Lemma load_loop_last_row_wins_witness :
  ∃ brands pairs,
    load_loop shared_model_rows ∅ ∅ stale_world = (Ret (brands, pairs), stale_world)
    ∧ (∀ model, pairs !! model = last_maker_of model shared_model_rows)
    ∧ (∀ b, b ∈ brands ↔ ∃ line, line ∈ shared_model_rows ∧ line !! "maker" = Some b).
Proof.
  apply (load_loop_last_row_wins shared_model_rows stale_world).
  apply (bool_decide_unpack _). vm_compute. exact Logic.I.
Defined.



(** *** Sessions and tables evaluated *)

(** With no random numbers left every round asks for the Civic of Honda
    and offers Honda under [A] and [C]: ten lines [c] score ten, ten
    lines [b] score nothing, and lines the quiz rejects change neither. *)
Example session_all_right :
  last (trace (guess_car_brand "model_codes_carscom.csv"
                 (fresh_world five_makers (replicate 10 "c") [])).2)
  = Some (EvPrint ("Score 10/10" +:+ PyStr.newline)).
Proof. vm_compute. reflexivity. Qed.

Example session_all_wrong :
  last (trace (guess_car_brand "model_codes_carscom.csv"
                 (fresh_world five_makers (replicate 10 "b") [])).2)
  = Some (EvPrint ("Score 0/10" +:+ PyStr.newline)).
Proof. vm_compute. reflexivity. Qed.

Example session_with_rejected_lines :
  answers (trace (guess_car_brand "model_codes_carscom.csv"
                    (fresh_world five_makers
                       ("Z" :: "c" :: "7" :: "e" :: replicate 9 "c") [])).2)
  = answers (trace (guess_car_brand "model_codes_carscom.csv"
                      (fresh_world five_makers (replicate 10 "c") [])).2).
Proof. vm_compute. reflexivity. Qed.

(** The test [user_choice in letters] is a substring test: the empty line
    and [AB] pass it, and are then judged wrong. *)
Example empty_line_is_accepted :
  valid_line "" = true ∧ valid_line "AB" = true ∧ valid_line "Z" = false
  ∧ last (trace (guess_car_brand "model_codes_carscom.csv"
                   (fresh_world five_makers ("" :: "ab" :: replicate 8 "c") [])).2)
    = Some (EvPrint ("Score 8/10" +:+ PyStr.newline)).
Proof. split_and!; vm_compute; reflexivity. Qed.

(** Input that ends before the tenth answer ends the call in [EOFError]. *)
Example session_out_of_input :
  (guess_car_brand "model_codes_carscom.csv"
     (fresh_world five_makers ["z"; "a"] [])).1 = Raise EOFError.
Proof. vm_compute. reflexivity. Qed.

(** Two makers are too few for the sample, and an empty dataset leaves no
    pair to choose. *)
Example session_two_makers :
  (guess_car_brand "model_codes_carscom.csv"
     (fresh_world (take 2 five_makers) ten_answers [])).1 = Raise ValueError.
Proof. vm_compute. reflexivity. Qed.

Example session_no_makers :
  (guess_car_brand "model_codes_carscom.csv"
     (fresh_world [] ten_answers [])).1 = Raise IndexError.
Proof. vm_compute. reflexivity. Qed.

(** A model name of blanks stops the builder. *)
Example blank_model_name :
  (extract_maker_model_codes "/app/model_codes_carscom.csv"
     (fresh_world [ {| mk_nm := "Kia"; mk_id := "20068";
                       mk_md := [ {| md_nm := "Rio"; md_id := "21121" |};
                                  {| md_nm := "   "; md_id := "0" |} ] |} ] [] [])).1
  = Raise IndexError.
Proof. vm_compute. reflexivity. Qed.

(** The rows of [five_makers], read back as lists. *)
Example five_makers_rows :
  (λ row, (row !! "maker", row !! "model", row !! "maker code", row !! "model code"))
    <$> expected_rows five_makers
  = [ (Some "Honda", Some "Accord", Some "20017", Some "20606");
      (Some "Honda", Some "Civic", Some "20017", Some "20608");
      (Some "Toyota", Some "Camry", Some "20088", Some "20912");
      (Some "Ford", Some "Focus", Some "20015", Some "20456");
      (Some "BMW", Some "X5", Some "20005", Some "21029");
      (Some "Audi", Some "A4", Some "20049", Some "20596") ].
Proof. vm_compute. reflexivity. Qed.

(** Of two makers with a Civic, the later row wins. *)
Example shared_model_last_wins :
  index_of shared_model_rows !! "Civic" = Some "Kia"
  ∧ elements (brands_of shared_model_rows) ≡ₚ ["Honda"; "Toyota"; "Kia"].
Proof.
  split; [vm_compute; reflexivity|].
  apply NoDup_Permutation; [apply NoDup_elements| |].
  - apply (bool_decide_unpack _). vm_compute. exact Logic.I.
  - intros x. rewrite elem_of_elements, elem_of_brands_of. split.
    + intros (line & Hl & Hm). unfold shared_model_rows in Hl.
      rewrite !elem_of_cons in Hl. destruct Hl as [->|[->|[->|Hl]]].
      * vm_compute in Hm. injection Hm as <-. apply (bool_decide_unpack _). vm_compute. exact Logic.I.
      * vm_compute in Hm. injection Hm as <-. apply (bool_decide_unpack _). vm_compute. exact Logic.I.
      * vm_compute in Hm. injection Hm as <-. apply (bool_decide_unpack _). vm_compute. exact Logic.I.
      * by apply not_elem_of_nil in Hl.
    + rewrite !elem_of_cons. intros [->|[->|[->|Hl]]].
      * eexists. split; [apply list_elem_of_here|]. vm_compute. reflexivity.
      * eexists. split; [apply list_elem_of_further, list_elem_of_here|]. vm_compute. reflexivity.
      * eexists. split; [do 2 apply list_elem_of_further; apply list_elem_of_here|].
        vm_compute. reflexivity.
      * by apply not_elem_of_nil in Hl.
Qed.

(** A table that cannot be removed: the call ends in [sys.exit(1)]. *)
Example locked_table :
  write_cars_to_csv "/app/model_codes_carscom.csv" csv_header
    (expected_rows five_makers) locked_world
  = (SysExit 1,
     log (EvPrint ("error in deleting /app/model_codes_carscom.csv" +:+ PyStr.newline))
       locked_world).
Proof. vm_compute. reflexivity. Qed.

(** * Further properties *)

(** ** File names *)

Section more_file_names.
Import PyStr.

Lemma split_cons sep s : ∃ h t, split sep s = h :: t.
Proof.
  induction s as [|c s (h & t & IH)]; simpl; [by eexists _, _|].
  destruct (decide (c = sep)); [by eexists _, _|]. rewrite IH. by eexists _, _.
Qed.

Lemma length_split sep s : length (split sep s) = S (count_char sep s).
Proof.
  induction s as [|c s IH]; simpl; [done|].
  destruct (decide (c = sep)); simpl; [by rewrite IH|].
  destruct (split_cons sep s) as (h & t & Hs). rewrite Hs in *. simpl in *. lia.
Qed.

Lemma extract_info_unfold csv_name :
  extract_info_from_csvfilename csv_name
  = match split "-" (base_name csv_name) with
    | maker :: model :: rest =>
        match last rest with
        | Some condition =>
            Ret {[ "maker" := upper maker; "model" := upper model;
                   "condition" := upper condition ]}
        | None => Raise ValueError
        end
    | _ => Raise ValueError
    end.
Proof. reflexivity. Qed.

(** X2: the function fails exactly when the name it splits has fewer
    than two hyphens, and then with [ValueError]; otherwise it returns a
    dictionary. *)
Theorem extract_info_needs_two_hyphens csv_name :
  (extract_info_from_csvfilename csv_name = Raise ValueError
   ↔ count_char "-" (base_name csv_name) < 2)
  ∧ (2 ≤ count_char "-" (base_name csv_name)
     ↔ ∃ car_info, extract_info_from_csvfilename csv_name = Ret car_info).
Proof.
  rewrite extract_info_unfold.
  pose proof (length_split "-" (base_name csv_name)) as Hl.
  destruct (split "-" (base_name csv_name)) as [|maker [|model rest]];
    simpl in Hl; [lia| |].
  - split; [split; [lia|done]|]. split; [lia|]. by intros [? ?].
  - destruct (last rest) as [condition|] eqn:Hlast.
    + assert (rest ≠ []) by by intros ->.
      destruct rest; [done|]. simpl in Hl.
      split; [split; [done|lia]|]. split; [by eexists|lia].
    + apply last_None in Hlast as ->. simpl in Hl.
      split; [split; [lia|done]|]. split; [lia|]. by intros [? ?].
Qed.

Lemma upper_char_idemp c : upper_char (upper_char c) = upper_char c.
Proof. destruct c as [[] [] [] [] [] [] [] []]; reflexivity. Qed.

Lemma upper_idemp s : upper (upper s) = upper s.
Proof. induction s as [|c s IH]; simpl; [done|]. by rewrite upper_char_idemp, IH. Qed.

(** X3: a dictionary returned has the keys [maker], [model] and
    [condition] and no other, and its values are in upper case. *)
Theorem extract_info_keys_and_case csv_name (car_info : gmap string string) :
  extract_info_from_csvfilename csv_name = Ret car_info →
  dom car_info = {[ "maker"; "model"; "condition" ]}
  ∧ ∀ key value, car_info !! key = Some value → upper value = value.
Proof.
  rewrite extract_info_unfold.
  destruct (split "-" (base_name csv_name)) as [|maker [|model rest]]; [done..|].
  destruct (last rest) as [condition|]; [|done]. intros [= <-]. split.
  - rewrite !dom_insert_L, dom_singleton_L. set_solver.
  - intros key value.
    rewrite !lookup_insert. repeat case_decide; try (intros [= <-]; apply upper_idemp).
    rewrite lookup_singleton. case_decide; [|done]. intros [= <-]. apply upper_idemp.
Qed.

Lemma slice_to_last (s : string) start :
  String.length s ≠ 0 →
  slice s start (-1) = slice s start (Z.of_nat (String.length s) - 1).
Proof.
  intros Hn. unfold slice.
  destruct (Z.ltb_spec (-1) 0); [|lia].
  destruct (Z.ltb_spec (Z.of_nat (String.length s) - 1) 0); [lia|].
  f_equal. lia.
Qed.

(** X4: for a path [dir/stem] without any dot, the name that is split
    is [stem] without its last character: [rfind] answers [-1] and the
    slice ends before the last character. *)
Theorem extract_info_path_without_dot dir stem c maker model middle condition :
  has_char "." dir = false → has_char "." stem = false → c ≠ "."%char →
  has_char "/" stem = false → c ≠ "/"%char →
  split "-" stem = maker :: model :: middle ++ [condition] →
  base_name (dir +:+ String "/" (stem +:+ String c EmptyString)) = stem
  ∧ extract_info_from_csvfilename (dir +:+ String "/" (stem +:+ String c EmptyString))
    = Ret {[ "maker" := upper maker; "model" := upper model;
             "condition" := upper condition ]}.
Proof.
  intros Hd Hs Hc Hs' Hc' Hsplit.
  assert (base_name (dir +:+ String "/" (stem +:+ String c EmptyString)) = stem) as Hb.
  { unfold base_name. rewrite has_char_append. simpl has_char at 2.
    rewrite orb_true_r.
    rewrite rfind_last; last first.
    { rewrite has_char_append, Hs'. simpl. by rewrite decide_False. }
    rewrite (rfind_absent "."); last first.
    { rewrite has_char_append, Hd. simpl.
      rewrite has_char_append, Hs. simpl. by rewrite decide_False. }
    rewrite slice_to_last; last first.
    { rewrite length_append. simpl. lia. }
    assert (dir +:+ String "/" (stem +:+ String c EmptyString)
            = (dir +:+ "/") +:+ stem +:+ String c EmptyString) as ->.
    { rewrite append_assoc. by rewrite append_cons, append_empty_l. }
    replace (Z.of_nat (String.length dir) + 1)%Z
      with (Z.of_nat (String.length (dir +:+ "/")))
      by (rewrite length_append; simpl; lia).
    replace (Z.of_nat (String.length ((dir +:+ "/") +:+ stem +:+ String c EmptyString)) - 1)%Z
      with (Z.of_nat (String.length (dir +:+ "/") + String.length stem))
      by (rewrite !length_append; simpl; lia).
    apply slice_middle. }
  split; [done|]. by rewrite extract_info_unfold, Hb, Hsplit, last_snoc.
Qed.

End more_file_names.

(** ** Writing the table, further *)

Section more_write_cars.
Implicit Types (w : world) (rows : list (gmap string string)).


(** X6: whatever the call ends with, it leaves every other file, the
    pending input and the random source as they were. *)
Theorem write_cars_to_csv_frame csv_name header rows w :
  (∀ path, path ≠ csv_name →
     files (write_cars_to_csv csv_name header rows w).2 !! path = files w !! path)
  ∧ stdin (write_cars_to_csv csv_name header rows w).2 = stdin w
  ∧ rng (write_cars_to_csv csv_name header rows w).2 = rng w
  ∧ locked (write_cars_to_csv csv_name header rows w).2 = locked w.
Proof.
  destruct (files w !! csv_name) as [f|] eqn:Hf.
  - destruct (decide (csv_name ∈ locked w)).
    + rewrite write_cars_to_csv_locked by (by rewrite ?Hf). by split_and!.
    + rewrite write_cars_to_csv_removed by (by rewrite ?Hf). simpl.
      split_and!; [|done..]. intros path Hp.
      by rewrite lookup_insert_ne, lookup_delete_ne by done.
  - rewrite write_cars_to_csv_fresh by done. simpl.
    split_and!; [|done..]. intros path Hp. by rewrite lookup_insert_ne by done.
Qed.


(** X8: writing the same table again removes the first copy and leaves
    the files as the first call left them. *)
Theorem write_cars_to_csv_again csv_name header rows w w1 :
  csv_name ∉ locked w →
  write_cars_to_csv csv_name header rows w = (Ret tt, w1) →
  ∃ w2, write_cars_to_csv csv_name header rows w1 = (Ret tt, w2)
        ∧ files w2 = files w1
        ∧ ∃ evs, trace w2 = trace w1 ++ EvRemove csv_name :: evs.
Proof.
  intros Hl Hrun.
  assert (files w1 = <[csv_name := CsvFile header rows]> (files w)
          ∧ locked w1 = locked w) as [Hf1 Hl1].
  { destruct (files w !! csv_name) as [f|] eqn:Hf.
    - rewrite write_cars_to_csv_removed in Hrun by (by rewrite ?Hf).
      injection Hrun as <-. simpl. split; [|done]. apply insert_delete_eq.
    - rewrite write_cars_to_csv_fresh in Hrun by done. by injection Hrun as <-. }
  eexists. split.
  - apply write_cars_to_csv_removed.
    + rewrite Hf1, lookup_insert_eq. by eexists.
    + by rewrite Hl1.
  - simpl. split.
    + by rewrite insert_delete_eq, Hf1, insert_insert_eq.
    + eexists. by rewrite <-!app_assoc.
Qed.

End more_write_cars.

(** ** Building the table, further *)

Section more_extract.
Implicit Types (w : world) (data : list maker_entry).

Lemma elem_of_maker_model_pairs data maker model :
  (maker, model) ∈ maker_model_pairs data ↔ maker ∈ data ∧ model ∈ mk_md maker.
Proof.
  unfold maker_model_pairs. rewrite list_elem_of_bind. split.
  - intros (mk & Hin & Hmk). apply list_elem_of_bind in Hin as (md & Hin & Hmd).
    apply list_elem_of_singleton in Hin as [= -> ->]. done.
  - intros [Hmk Hmd]. exists maker. split; [|done].
    apply list_elem_of_bind. exists model. split; [|done]. apply list_elem_of_here.
Qed.

Lemma elem_of_expected_rows data row :
  row ∈ expected_rows data
  ↔ ∃ maker model, maker ∈ data ∧ model ∈ mk_md maker ∧ row = row_of maker model.
Proof.
  unfold expected_rows. rewrite list_elem_of_fmap. split.
  - intros ([maker model] & -> & Hin). apply elem_of_maker_model_pairs in Hin as [??].
    by exists maker, model.
  - intros (maker & model & ? & ? & ->). exists (maker, model). split; [done|].
    by apply elem_of_maker_model_pairs.
Qed.

Lemma expected_rows_ok data : Forall line_ok (expected_rows data).
Proof.
  apply Forall_forall. intros row (maker & model & _ & _ & ->)%elem_of_expected_rows.
  destruct (row_of_lookup maker model) as (Hmk & _ & Hmd & _).
  split; by eexists.
Qed.

Lemma extract_without_dataset csv_name w :
  files w !! json_path w = None →
  extract_maker_model_codes csv_name w = (Raise FileNotFoundError, w).
Proof.
  intros Hj. unfold extract_maker_model_codes.
  erewrite bind_Ret; last reflexivity.
  by erewrite bind_Raise; last by (unfold json_load_all; fold (json_path w); rewrite Hj).
Qed.

(** X9: without the nested dataset next to the module the builder ends
    in [FileNotFoundError] and changes nothing: a table already at the
    destination is neither removed nor rewritten, and nothing is printed. *)
Theorem extract_maker_model_codes_without_dataset csv_name w :
  files w !! json_path w = None →
  ∃ w', extract_maker_model_codes csv_name w = (Raise FileNotFoundError, w')
        ∧ files w' = files w ∧ trace w' = trace w.
Proof. intros Hj. exists w. by rewrite extract_without_dataset. Qed.

Lemma strip_is_trimmed s : trimmed (PyStr.strip s).
Proof. destruct (strip_decompose s) as (l & r & _ & _ & _ & ? & ?). by split. Qed.

Lemma normalized_model_name_trimmed nm : trimmed (normalized_model_name nm).
Proof.
  unfold normalized_model_name. cbv zeta. case_decide; [|apply strip_is_trimmed].
  split.
  - destruct (lstrip_decompose (PyStr.tail (PyStr.strip nm))) as (l & _ & _ & Hh). done.
  - rewrite <-strip_tail_strip. unfold PyStr.strip at 1.
    destruct (rstrip_decompose (PyStr.lstrip (PyStr.tail (PyStr.strip nm))))
      as (r & _ & _ & Hl). done.
Qed.

Lemma dom_row_of maker model :
  dom (row_of maker model) = {[ "maker"; "model"; "maker code"; "model code" ]}.
Proof.
  unfold row_of. rewrite !dom_insert_L, dom_empty_L. set_solver.
Qed.

(** X10: every row the builder writes has the four columns of the header
    and no other, and the maker name and the model name in it neither begin
    nor end with white space. *)
Theorem extract_maker_model_codes_rows_well_formed csv_name w data :
  files w !! json_path w = Some (JsonFile data) →
  names_present data →
  files w !! csv_name = None ∨ csv_name ∉ locked w →
  ∃ w' rows,
    extract_maker_model_codes csv_name w = (Ret tt, w')
    ∧ files w' !! csv_name = Some (CsvFile csv_header rows)
    ∧ Forall (λ row : gmap string string,
        dom row = {[ "maker"; "model"; "maker code"; "model code" ]}
        ∧ (∃ name, row !! "maker" = Some name ∧ trimmed name)
        ∧ (∃ name, row !! "model" = Some name ∧ trimmed name)) rows.
Proof.
  intros Hj Hd Hw. destruct (extract_writes csv_name w data Hj Hd Hw) as (w' & Hrun & Hf).
  exists w', (expected_rows data). split_and!; [done..|].
  apply Forall_forall. intros row (maker & model & _ & _ & ->)%elem_of_expected_rows.
  destruct (row_of_lookup maker model) as (Hmk & _ & Hmd & _).
  split_and!; [apply dom_row_of| |].
  - eexists. split; [done|]. apply strip_is_trimmed.
  - eexists. split; [done|]. apply normalized_model_name_trimmed.
Qed.

(** X11: when the table at the destination cannot be removed, the builder
    ends in [sys.exit(1)] after the error notice, and the old table stays. *)
Theorem extract_maker_model_codes_locked_destination csv_name w data :
  files w !! json_path w = Some (JsonFile data) →
  names_present data →
  is_Some (files w !! csv_name) → csv_name ∈ locked w →
  ∃ w', extract_maker_model_codes csv_name w = (SysExit 1, w')
    ∧ files w' = files w
    ∧ trace w' = trace w ++
        [ EvPrint (("error in deleting " +:+ csv_name) +:+ PyStr.newline) ].
Proof.
  intros Hj Hd Hf Hl. rewrite (extract_named _ _ data Hj Hd).
  rewrite write_cars_to_csv_locked by done. by eexists.
Qed.

Lemma pairs_without_models data :
  maker_model_pairs (makers_with_models data) = maker_model_pairs data.
Proof.
  unfold maker_model_pairs, makers_with_models.
  induction data as [|maker data IH]; [done|].
  rewrite filter_cons, bind_cons. case_decide as Hmd.
  - by rewrite bind_cons, IH.
  - by rewrite Hmd, IH.
Qed.

(** a maker without models leaves no row, and so no brand *)
Lemma expected_rows_brands data :
  expected_rows data = expected_rows (makers_with_models data)
  ∧ brands_of (expected_rows data)
    = list_to_set ((λ maker, PyStr.strip (mk_nm maker)) <$> makers_with_models data).
Proof.
  split; [unfold expected_rows; by rewrite pairs_without_models|].
  apply set_eq. intros b.
  rewrite elem_of_brands_of, elem_of_list_to_set, list_elem_of_fmap. split.
  - intros (row & (maker & model & Hmk & Hmd & ->)%elem_of_expected_rows & Hb).
    destruct (row_of_lookup maker model) as (Hrow & _).
    rewrite Hrow in Hb. injection Hb as <-.
    exists maker. split; [done|]. apply list_elem_of_filter. split; [|done].
    intros Hnil. rewrite Hnil in Hmd. by apply not_elem_of_nil in Hmd.
  - intros (maker & -> & [Hne Hmk]%list_elem_of_filter).
    destruct (mk_md maker) as [|model models] eqn:Hmd; [done|].
    exists (row_of maker model). split.
    + apply elem_of_expected_rows. exists maker, model. rewrite Hmd.
      split_and!; [done| |done]. apply list_elem_of_here.
    + apply row_of_lookup.
Qed.

End more_extract.

(** ** Loading the table, further *)

Section more_load.
Implicit Types (w : world) (line : gmap string string)
  (rows : list (gmap string string)).

Lemma last_maker_of_Some model rows brand :
  last_maker_of model rows = Some brand →
  ∃ line, line ∈ rows ∧ line !! "model" = Some model ∧ line !! "maker" = Some brand.
Proof.
  unfold last_maker_of. destruct (last (filter _ rows)) as [line|] eqn:Hl; [|done].
  simpl. intros Hb. apply last_Some_elem_of, list_elem_of_filter in Hl as [? ?].
  by exists line.
Qed.

Lemma size_foldl_index_step rows (pairs : gmap string string) :
  size (foldl index_step pairs rows) ≤ size pairs + length rows.
Proof.
  revert pairs. induction rows as [|line rows IH]; intros pairs; simpl; [lia|].
  etrans; [apply IH|]. unfold index_step.
  destruct (line !! "maker"); [|lia]. destruct (line !! "model"); [|lia].
  rewrite map_size_insert. destruct (pairs !! _); simpl; lia.
Qed.

Lemma size_list_to_set_le (l : list string) :
  size (list_to_set l : gset string) ≤ length l.
Proof.
  induction l as [|x l IH].
  { change (size (∅ : gset string) ≤ 0). by rewrite size_empty. }
  rewrite list_to_set_cons, size_union_alt, size_singleton. simpl.
  pose proof (subseteq_size (list_to_set l ∖ {[x]}) (list_to_set l : gset string)) as Hs.
  specialize (Hs ltac:(by apply subseteq_difference_l)). lia.
Qed.

Lemma length_omap_le {A B} (f : A → option B) (l : list A) :
  length (omap f l) ≤ length l.
Proof. induction l as [|x l IH]; csimpl; [done|]. destruct (f x); simpl; lia. Qed.

(** X13: after loading, every brand the index names is in the set of
    brands, every model of the table is a key of the index, and neither
    the index nor the set has more entries than the table has rows. *)
Theorem load_loop_index_within_brands rows w :
  Forall line_ok rows →
  ∃ brands pairs,
    load_loop rows ∅ ∅ w = (Ret (brands, pairs), w)
    ∧ (∀ model brand, pairs !! model = Some brand → brand ∈ brands)
    ∧ (∀ line model, line ∈ rows → line !! "model" = Some model →
                     is_Some (pairs !! model))
    ∧ size pairs ≤ length rows
    ∧ size brands ≤ length rows.
Proof.
  intros Hok. exists (brands_of rows), (index_of rows). split_and!.
  - by rewrite load_loop_eq, (left_id_L ∅ (∪)).
  - intros model brand. rewrite index_of_lookup by done.
    intros (line & ? & _ & ?)%last_maker_of_Some. apply elem_of_brands_of. by exists line.
  - intros line model Hin Hmd. rewrite index_of_lookup by done. unfold last_maker_of.
    destruct (last (filter _ rows)) as [line'|] eqn:Hl.
    + simpl. apply last_Some_elem_of, list_elem_of_filter in Hl as [_ Hin'].
      rewrite Forall_forall in Hok. by destruct (Hok line' Hin') as [? _].
    + apply last_None in Hl.
      assert (line ∈ filter (λ line, line !! "model" = Some model) rows) as Hf
        by by apply list_elem_of_filter.
      rewrite Hl in Hf. by apply not_elem_of_nil in Hf.
  - unfold index_of. etrans; [apply size_foldl_index_step|].
    rewrite map_size_empty. lia.
  - unfold brands_of. etrans; [apply size_list_to_set_le|]. apply length_omap_le.
Qed.

(** a model whose normalized name belongs to one maker name only *)
Lemma expected_rows_index (data : list maker_entry) maker model :
  maker ∈ data → model ∈ mk_md maker →
  (∀ maker' model', maker' ∈ data → model' ∈ mk_md maker' →
     normalized_model_name (md_nm model') = normalized_model_name (md_nm model) →
     PyStr.strip (mk_nm maker') = PyStr.strip (mk_nm maker)) →
  index_of (expected_rows data) !! normalized_model_name (md_nm model)
  = Some (PyStr.strip (mk_nm maker)).
Proof.
  intros Hmk Hmd Honly.
  pose proof (expected_rows_ok data) as Hok.
  rewrite index_of_lookup by done.
  destruct (last_maker_of (normalized_model_name (md_nm model)) (expected_rows data))
    as [brand|] eqn:Hl.
  - apply last_maker_of_Some in Hl as (row & Hin & Hmodel & Hmaker).
    apply elem_of_expected_rows in Hin as (maker' & model' & Hmk' & Hmd' & ->).
    destruct (row_of_lookup maker' model') as (Hr1 & _ & Hr2 & _).
    rewrite Hr1 in Hmaker. rewrite Hr2 in Hmodel.
    injection Hmaker as <-. injection Hmodel as Hmodel. f_equal. by apply (Honly maker' model').
  - exfalso. unfold last_maker_of in Hl.
    destruct (last (filter _ (expected_rows data))) as [row|] eqn:Hlast.
    + simpl in Hl. apply last_Some_elem_of, list_elem_of_filter in Hlast as [_ Hin].
      rewrite Forall_forall in Hok. destruct (Hok row Hin) as [[? Hs] _]. congruence.
    + apply last_None in Hlast.
      assert (row_of maker model ∈ filter (λ line : gmap string string,
                line !! "model" = Some (normalized_model_name (md_nm model)))
                (expected_rows data)) as Hf.
      { apply list_elem_of_filter. split; [apply row_of_lookup|].
        apply elem_of_expected_rows. by exists maker, model. }
      rewrite Hlast in Hf. by apply not_elem_of_nil in Hf.
Qed.

Lemma load_loop_app good rest (brands : gset string) (pairs : gmap string string) w :
  Forall line_ok good →
  load_loop (good ++ rest) brands pairs w
  = load_loop rest (brands ∪ brands_of good) (foldl index_step pairs good) w.
Proof.
  intros H. revert brands pairs.
  induction H as [|line good [[maker Hmk] [model Hmd]] _ IH]; intros brands pairs.
  - simpl. by rewrite brands_of_nil, (right_id_L ∅ (∪)).
  - simpl. unfold getitem. rewrite Hmk, Hmd.
    do 3 (erewrite bind_Ret; last reflexivity).
    rewrite IH. unfold brands_of, index_step. simpl. rewrite Hmk, Hmd. simpl.
    by rewrite (assoc_L (∪)).
Qed.

(** X15: the first row without the column [maker] or [model] stops the
    loading with [KeyError], for [maker] when that column is missing and
    for [model] otherwise, and the world is as it was. *)
Theorem load_loop_missing_column good bad rest w :
  Forall line_ok good → ¬ line_ok bad →
  load_loop (good ++ bad :: rest) ∅ ∅ w
  = (Raise (KeyError (match bad !! "maker" with
                      | Some _ => "model"
                      | None => "maker"
                      end)), w).
Proof.
  intros Hgood Hbad. rewrite load_loop_app by done. simpl. unfold getitem.
  destruct (bad !! "maker") as [maker|] eqn:Hmk.
  - do 2 (erewrite bind_Ret; last reflexivity).
    destruct (bad !! "model") as [model|] eqn:Hmd.
    + destruct Hbad. split; by eexists.
    + by erewrite bind_Raise.
  - by erewrite bind_Raise.
Qed.

(** the table built, read and loaded *)
Lemma build_then_load csv_name w data :
  files w !! json_path w = Some (JsonFile data) →
  names_present data →
  files w !! csv_name = None ∨ csv_name ∉ locked w →
  ∃ w', extract_maker_model_codes csv_name w = (Ret tt, w')
        ∧ csv_read csv_name w' = (Ret (expected_rows data), w')
        ∧ load_loop (expected_rows data) ∅ ∅ w'
          = (Ret (brands_of (expected_rows data), index_of (expected_rows data)), w').
Proof.
  intros Hj Hn Hw. destruct (extract_writes csv_name w data Hj Hn Hw) as (w' & Hrun & Hf).
  exists w'. split_and!; [done| |].
  - unfold csv_read. by rewrite Hf.
  - rewrite load_loop_eq by apply expected_rows_ok. by rewrite (left_id_L ∅ (∪)).
Qed.

(** X12: building the table and loading it gives, as the set of brands,
    the trimmed names of the makers that have a model: a maker without
    models leaves no row and so no brand. *)
Theorem build_then_load_brands csv_name w data :
  files w !! json_path w = Some (JsonFile data) →
  names_present data →
  files w !! csv_name = None ∨ csv_name ∉ locked w →
  ∃ w' rows brands pairs,
    extract_maker_model_codes csv_name w = (Ret tt, w')
    ∧ csv_read csv_name w' = (Ret rows, w')
    ∧ load_loop rows ∅ ∅ w' = (Ret (brands, pairs), w')
    ∧ brands = list_to_set
        ((λ maker, PyStr.strip (mk_nm maker)) <$> makers_with_models data).
Proof.
  intros Hj Hn Hw. destruct (build_then_load csv_name w data Hj Hn Hw)
    as (w' & Hrun & Hread & Hload).
  eexists w', _, _, _. split_and!; [done..|]. apply expected_rows_brands.
Qed.

(** X14: building the table and loading it gives back the makers: a
    model whose normalized name occurs under one maker name only is mapped
    by the index to that maker's trimmed name. *)
Theorem build_then_load_index csv_name w data maker model :
  files w !! json_path w = Some (JsonFile data) →
  names_present data →
  files w !! csv_name = None ∨ csv_name ∉ locked w →
  maker ∈ data → model ∈ mk_md maker →
  (∀ maker' model', maker' ∈ data → model' ∈ mk_md maker' →
     normalized_model_name (md_nm model') = normalized_model_name (md_nm model) →
     PyStr.strip (mk_nm maker') = PyStr.strip (mk_nm maker)) →
  ∃ w' rows brands pairs,
    extract_maker_model_codes csv_name w = (Ret tt, w')
    ∧ csv_read csv_name w' = (Ret rows, w')
    ∧ load_loop rows ∅ ∅ w' = (Ret (brands, pairs), w')
    ∧ pairs !! normalized_model_name (md_nm model) = Some (PyStr.strip (mk_nm maker)).
Proof.
  intros Hj Hn Hw Hmk Hmd Honly. destruct (build_then_load csv_name w data Hj Hn Hw)
    as (w' & Hrun & Hread & Hload).
  eexists w', _, _, _. split_and!; [done..|]. by apply expected_rows_index.
Qed.

End more_load.

(** ** Sessions, further *)

Section more_sessions.
Implicit Types (w : world) (rows : list (gmap string string)).

Lemma load_loop_world rows (brands : gset string) (pairs : gmap string string) w :
  (load_loop rows brands pairs w).2 = w.
Proof.
  revert brands pairs. induction rows as [|line rows IH]; intros brands pairs; [done|].
  simpl. unfold getitem. destruct (line !! "maker") as [maker|].
  - do 2 (erewrite bind_Ret; last reflexivity).
    destruct (line !! "model") as [model|].
    + erewrite bind_Ret; last reflexivity. apply IH.
    + by erewrite bind_Raise.
  - by erewrite bind_Raise.
Qed.

(** what the quiz keeps, once the table is in place *)
Lemma run_quiz_keeps (I : world → Prop) data_file w :
  (∀ w g, I w → I (set_rng g w)) →
  (∀ w l, I w → I (set_stdin l w)) →
  (∀ w e, I w → I (log e w)) →
  I w → I (run_quiz data_file w).2.
Proof.
  intros I_rng I_stdin I_log HI. unfold run_quiz.
  assert (∀ w0 rows, I w0 → I ((
    '(brands, model_brand_pairs) ← load_loop rows ∅ ∅;
    num_correct ← question_loop 10 0 0 4 "ABCD" brands model_brand_pairs;
    print ("Score " +:+ pretty num_correct +:+ "/" +:+ pretty 10)) w0).2) as Hrest.
  { intros w0 rows HI0. unfold mbind at 1, M_bind at 1.
    pose proof (load_loop_world rows ∅ ∅ w0) as Hw.
    destruct (load_loop rows ∅ ∅ w0) as [[[brands pairs]|e|n] w1];
      simpl in Hw; subst w1; [|done..].
    assert (safe I (λ _, True)
              (num_correct ← question_loop 10 0 0 4 "ABCD" brands pairs;
               print ("Score " +:+ pretty num_correct +:+ "/" +:+ pretty 10))
              (λ _, True)) as Hsafe.
    { eapply safe_bind.
      - apply (safe_question_loop brands pairs); auto.
      - intros nc _. apply safe_print. auto. }
    specialize (Hsafe w0 HI0).
    destruct (@mbind M _ _ _ _ _ w0) as [[a|e|n] w2]; simpl; tauto. }
  unfold mbind at 1, M_bind at 1. unfold csv_read at 1.
  destruct (files w !! data_file) as [[h rows|all]|]; [|done..].
  by apply Hrest.
Qed.

(** X16: with a table in place, a session never touches the files,
    whatever it ends with: the table is not rebuilt and the nested dataset
    is not read. *)
Theorem guess_car_brand_keeps_files data_file w :
  is_Some (files w !! store_path w) →
  files (guess_car_brand data_file w).2 = files w
  ∧ locked (guess_car_brand data_file w).2 = locked w.
Proof.
  intros [f Hf]. rewrite (guess_car_brand_store _ _ _ Hf).
  by apply (run_quiz_keeps (λ w', files w' = files w ∧ locked w' = locked w)).
Qed.

(** X17: without a table, and with the nested dataset in place, a session
    first builds the table next to the module; whatever the quiz then ends
    with, that table is the only change to the files. *)
Theorem guess_car_brand_builds_table data_file w data :
  files w !! store_path w = None →
  files w !! json_path w = Some (JsonFile data) →
  names_present data →
  files (guess_car_brand data_file w).2
  = <[store_path w := CsvFile csv_header (expected_rows data)]> (files w)
  ∧ ∃ evs, trace (guess_car_brand data_file w).2
           = trace w ++ EvOpenW (store_path w) :: evs.
Proof.
  intros Hf Hj Hn. rewrite guess_car_brand_eq.
  erewrite bind_Ret; last reflexivity.
  rewrite bool_decide_eq_false_2 by (rewrite Hf; by intros [? ?]).
  erewrite bind_Ret; last first.
  { rewrite (extract_named _ _ data Hj Hn). by apply write_cars_to_csv_fresh. }
  set (w1 := written (store_path w) csv_header (expected_rows data) w).
  apply (run_quiz_keeps
           (λ w', files w' = files w1
                  ∧ ∃ evs, trace w' = trace w ++ EvOpenW (store_path w) :: evs)).
  - by intros w0 g.
  - by intros w0 l.
  - intros w0 e [? [evs Ht]]. split; [done|]. exists (evs ++ [e]).
    by rewrite trace_log, Ht, <-app_assoc.
  - split; [done|]. eexists. unfold w1. simpl. by rewrite <-app_assoc.
Qed.

Lemma wait_valid_choice_exhausted w :
  filter valid_line (stdin w) = [] →
  ∃ w' evs,
    wait_valid_choice "ABCD" w = (Raise EOFError, w')
    ∧ stdin w' = [] ∧ trace w' = trace w ++ evs
    ∧ Forall is_print evs ∧ last evs = Some (EvPrint "> ").
Proof.
  remember (stdin w) as lines eqn:Hl. revert w Hl.
  induction lines as [|line lines IH]; intros w Hl Hf.
  - rewrite wait_valid_choice_eof by done.
    eexists _, [EvPrint "> "]. split_and!; [done|done|done|by apply Forall_cons|done].
  - rewrite filter_cons in Hf. destruct (decide (valid_line line)) as [Hv|Hv]; [done|].
    apply Is_true_false in Hv.
    rewrite (wait_valid_choice_reprompt w line lines) by done.
    edestruct IH as (w' & evs & -> & Hs & Ht & Hp & Hlast); [|exact Hf|]; [done|].
    eexists w', (_ :: _ :: evs). split_and!; [done|done| | |].
    + rewrite Ht. simpl. by rewrite <-!app_assoc.
    + by do 2 (apply Forall_cons; split; [done|]).
    + destruct evs as [|e evs]; [done|]. by rewrite !last_cons_cons.
Qed.

Lemma question_loop_round_eof count qn nc w (brands : gset string)
    (pairs : gmap string string) :
  3 ≤ size brands → pairs ≠ ∅ →
  filter valid_line (stdin w) = [] →
  ∃ w' evs,
    question_loop (S count) qn nc 4 "ABCD" brands pairs w = (Raise EOFError, w')
    ∧ trace w' = trace w ++ evs
    ∧ answers evs = [] ∧ length (draws evs) = 1
    ∧ stdin w' = [] ∧ last evs = Some (EvPrint "> ").
Proof.
  intros Hb Hp Hf.
  destruct (choice_eq (map_to_list pairs) w) as ([model brand] & g1 & Hch & Hin).
  { by rewrite map_to_list_empty_iff. }
  set (q := EvPrint ((pretty (qn + 1) +:+ ". What is the brand of " +:+ model
             +:+ "? (choose one from " +:+ "A" +:+ " to " +:+ "D" +:+ ")")
             +:+ PyStr.newline)).
  set (w2 := log q (set_rng g1 w)).
  destruct (sample_eq (elements brands) 3 w2) as (s & g2 & rest & Hs & Hlen & _);
    [exact Hb|].
  destruct (shuffle_eq (s ++ [brand]) (set_rng g2 w2)) as (choices & g3 & Hsh & Hperm).
  assert (length choices = 4) as Hlc.
  { apply Permutation_length in Hperm. rewrite length_app in Hperm. simpl in Hperm. lia. }
  destruct choices as [|c1 [|c2 [|c3 [|c4 [|]]]]]; try discriminate Hlc. clear Hlc.
  set (w5 := log (EvPrint ("" +:+ PyStr.newline))
              (log (EvPrint (("D" +:+ ". " +:+ c4 +:+ "  ") +:+ ""))
              (log (EvPrint (("C" +:+ ". " +:+ c3 +:+ "  ") +:+ ""))
              (log (EvPrint (("B" +:+ ". " +:+ c2 +:+ "  ") +:+ ""))
              (log (EvPrint (("A" +:+ ". " +:+ c1 +:+ "  ") +:+ ""))
              (log (EvDraw model brand s [c1; c2; c3; c4])
                 (set_rng g3 (set_rng g2 w2)))))))).
  destruct (wait_valid_choice_exhausted w5 Hf) as (w6 & evs6 & Hw & Hs6 & Ht6 & Hp6 & Hl6).
  exists w6, ([q; EvDraw model brand s [c1; c2; c3; c4];
               EvPrint (("A" +:+ ". " +:+ c1 +:+ "  ") +:+ "");
               EvPrint (("B" +:+ ". " +:+ c2 +:+ "  ") +:+ "");
               EvPrint (("C" +:+ ". " +:+ c3 +:+ "  ") +:+ "");
               EvPrint (("D" +:+ ". " +:+ c4 +:+ "  ") +:+ "");
               EvPrint ("" +:+ PyStr.newline)] ++ evs6).
  split_and!.
  - cbn [question_loop].
    erewrite bind_Ret; last exact Hch. cbv beta iota.
    erewrite bind_Ret; last reflexivity.
    erewrite bind_Ret; last reflexivity.
    erewrite bind_Ret; last reflexivity.
    erewrite bind_Ret; last exact Hs.
    erewrite bind_Ret; last exact Hsh.
    erewrite bind_Ret; last reflexivity.
    erewrite bind_Ret; last reflexivity.
    erewrite bind_Ret; last reflexivity.
    by erewrite bind_Raise; last exact Hw.
  - rewrite Ht6. unfold w5, w2. simpl. by rewrite <-!app_assoc.
  - rewrite answers_app, (answers_prints evs6) by done. done.
  - rewrite draws_app, (draws_prints evs6) by done. done.
  - done.
  - rewrite last_app, Hl6. done.
Qed.

Lemma question_loop_eof count qn nc w (brands : gset string)
    (pairs : gmap string string) :
  3 ≤ size brands → pairs ≠ ∅ →
  length (filter valid_line (stdin w)) < count →
  ∃ w' evs,
    question_loop count qn nc 4 "ABCD" brands pairs w = (Raise EOFError, w')
    ∧ trace w' = trace w ++ evs
    ∧ length (answers evs) = length (filter valid_line (stdin w))
    ∧ length (draws evs) = S (length (filter valid_line (stdin w)))
    ∧ stdin w' = [] ∧ last evs = Some (EvPrint "> ").
Proof.
  intros Hb Hp. revert qn nc w.
  induction count as [|count IH]; intros qn nc w Hc; [lia|].
  destruct (filter valid_line (stdin w)) as [|good more] eqn:Hf.
  - destruct (question_loop_round_eof count qn nc w brands pairs Hb Hp Hf)
      as (w' & evs & Hrun & Ht & Ha & Hd & Hs & Hl).
    exists w', evs. rewrite Ha, Hd. by split_and!.
  - simpl in Hc.
    destruct (question_loop_round qn nc w brands pairs good more Hb Hp Hf)
      as (nc1 & w1 & evs1 & d & brand & Hstep & Ht & Hd & Ha & Hn & Hs).
    destruct (IH (qn + 1) nc1 w1) as (w' & evs & Hrun & Ht' & Ha' & Hd' & Hs' & Hl').
    { rewrite Hs. lia. }
    exists w', (evs1 ++ evs). split_and!.
    + by rewrite Hstep.
    + by rewrite Ht', Ht, <-app_assoc.
    + rewrite answers_app, length_app, Ha, Ha', Hs. done.
    + rewrite draws_app, length_app, Hd, Hd', Hs. done.
    + done.
    + rewrite last_app, Hl'. done.
Qed.

(** X18: when standard input has fewer than ten acceptable lines, the
    session ends in [EOFError] at a prompt: it has judged as many answers
    as there were acceptable lines, has read all the input, and prints no
    score. *)
Theorem guess_car_brand_input_runs_out data_file w rows :
  store_ready w rows →
  Forall line_ok rows →
  3 ≤ size (brands_of rows) →
  length (filter valid_line (stdin w)) < 10 →
  ∃ w' evs,
    guess_car_brand data_file w = (Raise EOFError, w')
    ∧ trace w' = trace w ++ evs
    ∧ length (answers evs) = length (filter valid_line (stdin w))
    ∧ length (draws evs) = S (length (filter valid_line (stdin w)))
    ∧ stdin w' = []
    ∧ last evs = Some (EvPrint "> ").
Proof.
  intros Hr Hok Hb Hin.
  destruct (guess_car_brand_ready data_file w rows Hr)
    as (w1 & h & evs0 & Hg & Hf & Ht0 & Hs0 & Hd0 & Ha0 & _).
  assert (index_of rows ≠ ∅) as Hp.
  { apply index_of_nonempty; [done|]. intros ->. rewrite brands_of_nil in Hb.
    rewrite size_empty in Hb. lia. }
  rewrite <-Hs0 in Hin.
  destruct (question_loop_eof 10 0 0 w1 (brands_of rows) (index_of rows) Hb Hp Hin)
    as (w' & evs & Hrun & Ht & Ha & Hd & Hs & Hl).
  exists w', (evs0 ++ evs). rewrite answers_app, draws_app, Ha0, Hd0, <-Hs0. simpl.
  split_and!; [|by rewrite Ht, Ht0, <-app_assoc|done..|by rewrite last_app, Hl].
  rewrite Hg, (run_quiz_store _ _ _ Hf Hok).
  by erewrite bind_Raise; last exact Hrun.
Qed.

(** X19: a table without rows leaves no pair to ask for: the session ends
    in [IndexError] before any question is printed and before any input is
    read. *)
Theorem guess_car_brand_empty_table data_file w :
  store_ready w [] →
  ∃ w', guess_car_brand data_file w = (Raise IndexError, w')
    ∧ draws (trace w') = draws (trace w)
    ∧ stdin w' = stdin w
    ∧ ∀ h, files w !! store_path w = Some (CsvFile h []) → w' = w.
Proof.
  intros Hr.
  assert (∀ w1 h, files w1 !! store_path w1 = Some (CsvFile h []) →
            run_quiz (store_path w1) w1 = (Raise IndexError, w1)) as Hquiz.
  { intros w1 h Hf. rewrite (run_quiz_store _ _ _ Hf) by constructor.
    by erewrite bind_Raise. }
  destruct Hr as [[h Hf]|(Hf & data & Hj & Hn & Hrows)].
  - exists w. rewrite (guess_car_brand_store _ _ _ Hf), (Hquiz _ _ Hf). by split_and!.
  - destruct (guess_car_brand_ready data_file w [])
      as (w1 & h & evs0 & Hg & Hf1 & Ht0 & Hs0 & Hd0 & _).
    { right. split; [done|]. by exists data. }
    exists w1. rewrite Hg, (Hquiz _ _ Hf1). split_and!; [done| |done|].
    + by rewrite Ht0, draws_app, Hd0, app_nil_r.
    + intros h' Hf'. congruence.
Qed.

(** X20: with neither the table nor the nested dataset next to the
    module, the session ends in [FileNotFoundError] and nothing has
    happened. *)
Theorem guess_car_brand_nothing_to_read data_file w :
  files w !! store_path w = None →
  files w !! json_path w = None →
  guess_car_brand data_file w = (Raise FileNotFoundError, w).
Proof.
  intros Hf Hj. rewrite guess_car_brand_eq.
  erewrite bind_Ret; last reflexivity.
  rewrite bool_decide_eq_false_2 by (rewrite Hf; by intros [? ?]).
  erewrite bind_Raise; first done.
  by apply extract_without_dataset.
Qed.

End more_sessions.

(** ** The command line *)

Section command_line.
Import PyStr.

Lemma digit_pretty_N_char (d : N) :
  (d < 10)%N → PyInt.digit (pretty_N_char d) = Some (Z.of_N d).
Proof.
  intros Hd.
  assert (d = 0 ∨ d = 1 ∨ d = 2 ∨ d = 3 ∨ d = 4 ∨ d = 5 ∨ d = 6 ∨ d = 7
          ∨ d = 8 ∨ d = 9)%N as Hcases by lia.
  repeat destruct Hcases as [->|Hcases]; try subst d; reflexivity.
Qed.

Lemma digit_not_space c d : PyInt.digit c = Some d → is_space c = false.
Proof. destruct c as [[] [] [] [] [] [] [] []]; by vm_compute. Qed.

Lemma digit_not_sign c d :
  PyInt.digit c = Some d → c ≠ "+"%char ∧ c ≠ "-"%char.
Proof. intros Hd. split; intros ->; by vm_compute in Hd. Qed.

(** reading the digits that [pretty] writes *)
Lemma digits_pretty_N_go (x : N) (s : string) :
  ∃ p, ∀ acc, PyInt.digits acc (pretty_N_go x s)
              = PyInt.digits (acc * p + Z.of_N x) s.
Proof.
  revert s. induction (N.lt_wf_0 x) as [x _ IH]. intros s.
  destruct (decide (x = 0)%N) as [->|Hx].
  - exists 1%Z. intros acc. rewrite pretty_N_go_0. f_equal. lia.
  - rewrite pretty_N_go_step by lia.
    destruct (IH (x `div` 10)%N ltac:(apply N.div_lt; [lia|done])
                 (String (pretty_N_char (x `mod` 10)) s)) as [p Hp].
    exists (10 * p)%Z. intros acc. rewrite Hp. cbn [PyInt.digits].
    rewrite digit_pretty_N_char by (apply N.mod_lt; lia). f_equal.
    pose proof (N.div_mod x 10 ltac:(lia)). lia.
Qed.

Lemma pretty_N_go_head (x : N) (s : string) :
  (0 < x)%N →
  ∃ c t d, pretty_N_go x s = String c t ∧ PyInt.digit c = Some d.
Proof.
  revert s. induction (N.lt_wf_0 x) as [x _ IH]. intros s Hx.
  rewrite pretty_N_go_step by done.
  destruct (decide (x `div` 10 = 0)%N) as [Hd|Hd].
  - rewrite Hd, pretty_N_go_0. eexists _, _, _. split; [done|].
    apply digit_pretty_N_char, N.mod_lt. lia.
  - apply IH; [by apply N.div_lt|]. by apply N.neq_0_lt_0.
Qed.

Lemma pretty_N_go_last (x : N) (s : string) :
  s ≠ EmptyString → last_char (pretty_N_go x s) = last_char s.
Proof.
  revert s. induction (N.lt_wf_0 x) as [x _ IH]. intros s Hs.
  destruct (decide (x = 0)%N) as [->|Hx]; [by rewrite pretty_N_go_0|].
  rewrite pretty_N_go_step by lia. rewrite IH; [|apply N.div_lt; [lia|done]|done].
  by destruct s.
Qed.

Lemma lstrip_fixed c s : is_space c = false → lstrip (String c s) = String c s.
Proof. intros Hc. simpl. by rewrite Hc. Qed.

Lemma rstrip_fixed s :
  (∀ c, last_char s = Some c → is_space c = false) → rstrip s = s.
Proof.
  induction s as [|c s IH]; [done|]. intros Hl. simpl.
  destruct s as [|c' s'].
  - simpl. by rewrite (Hl c eq_refl).
  - rewrite IH by (intros d Hd; by apply Hl). done.
Qed.

Lemma strip_fixed c s :
  is_space c = false →
  (∀ d, last_char (String c s) = Some d → is_space d = false) →
  strip (String c s) = String c s.
Proof. intros Hc Hl. unfold strip. rewrite lstrip_fixed by done. by apply rstrip_fixed. Qed.

Lemma literal_pretty_N (x : N) : PyInt.literal (pretty x) = Some (Z.of_N x).
Proof.
  unfold pretty, pretty_N. case_decide as Hx; [by subst|].
  destruct (pretty_N_go_head x EmptyString ltac:(lia)) as (c & t & d & Hs & Hd).
  destruct (digits_pretty_N_go x EmptyString) as [p Hp].
  unfold PyInt.literal. rewrite Hs, Hd, <-Hs, Hp. simpl. f_equal; lia.
Qed.

Lemma pretty_N_trimmed (x : N) :
  ∃ c t d, pretty x = String c t ∧ PyInt.digit c = Some d
           ∧ ∀ e, last_char (pretty x) = Some e → is_space e = false.
Proof.
  unfold pretty, pretty_N. case_decide as Hx.
  - eexists _, _, _. split_and!; [done|by vm_compute|]. by intros e [= <-].
  - destruct (pretty_N_go_head x EmptyString ltac:(lia)) as (c & t & d & Hs & Hd).
    exists c, t, d. split_and!; [done..|].
    rewrite pretty_N_go_step, pretty_N_go_last by (done || lia).
    simpl. intros e [= <-].
    eapply digit_not_space, digit_pretty_N_char, N.mod_lt. lia.
Qed.

(** [int] reads back the decimal numeral of every integer *)
Lemma parse_pretty (z : Z) : PyInt.parse (pretty z) = Some z.
Proof.
  unfold PyInt.parse. destruct z as [|x|x]; [done| |].
  - change (pretty (Z.pos x)) with (pretty (N.pos x)).
    destruct (pretty_N_trimmed (N.pos x)) as (c & t & d & Hs & Hd & Hl).
    rewrite Hs in Hl |- *. rewrite strip_fixed by eauto using digit_not_space.
    destruct (digit_not_sign c d Hd) as [? ?]. rewrite !decide_False by done.
    by rewrite <-Hs, literal_pretty_N.
  - change (pretty (Z.neg x)) with ("-" +:+ pretty (N.pos x)).
    destruct (pretty_N_trimmed (N.pos x)) as (c & t & d & Hs & Hd & Hl).
    rewrite append_cons, append_empty_l.
    rewrite strip_fixed; [|done|].
    + rewrite decide_False, decide_True by done.
      by rewrite literal_pretty_N.
    + rewrite Hs in Hl |- *. exact Hl.
Qed.

(** X21: with a number of arguments other than seven (a [sys.argv] of
    another length than eight) the two usage lines are printed, naming the
    program, the call ends in [sys.exit(1)], and no directory is asked for,
    whatever the arguments are. *)
Theorem user_input_usage prog args makedirs :
  length args ≠ 7 →
  user_input (prog :: args) makedirs
  = ([CliPrint (usage_line prog +:+ newline); CliPrint (example_line prog +:+ newline)],
     SysExit 1).
Proof.
  intros Hl. unfold user_input.
  destruct args as [|a1 [|a2 [|a3 [|a4 [|a5 [|a6 [|a7 [|a8 args]]]]]]]]; try done.
Qed.

(** X22: with seven arguments, the zip code and the radius written as
    decimal numerals, the call asks for the output directory once, prints
    nothing, and returns the seven values in the order of the command line,
    the two numbers as integers; the condition is taken as it is, whether
    or not it is [used] or [new]. *)
Theorem user_input_returns prog maker model (zipcode radius : Z)
    condition extra_file output_dir makedirs :
  makedirs output_dir = None →
  user_input [prog; maker; model; pretty zipcode; pretty radius;
              condition; extra_file; output_dir] makedirs
  = ([CliMakedirs output_dir],
     Ret (maker, model, zipcode, radius, condition, extra_file, output_dir)).
Proof.
  intros Hm. unfold user_input. by rewrite !parse_pretty, Hm.
Qed.


End command_line.

(** ** The further properties on concrete inputs *)

Lemma extract_info_path_witness :
  extract_info_from_csvfilename
    ("./data" +:+ String "/" ("honda-accord-2019-used" +:+ String "." "csv"))
  = Ret {[ "maker" := PyStr.upper "honda"; "model" := PyStr.upper "accord";
           "condition" := PyStr.upper "used" ]}.
Proof.
  apply (extract_info_path "./data" "honda-accord-2019-used" "csv"
           "honda" "accord" ["2019"] "used"); reflexivity.
Defined.

Lemma extract_info_keys_and_case_witness :
  dom ({[ "maker" := "HONDA"; "model" := "ACCORD"; "condition" := "USED.CSV" ]}
       : gmap string string)
  = {[ "maker"; "model"; "condition" ]}
  ∧ ∀ key value,
      ({[ "maker" := "HONDA"; "model" := "ACCORD"; "condition" := "USED.CSV" ]}
       : gmap string string) !! key = Some value →
      PyStr.upper value = value.
Proof.
  apply (extract_info_keys_and_case "honda-accord-2019-used.csv").
  vm_compute. reflexivity.
Defined.

Lemma extract_info_path_without_dot_witness :
  base_name ("data" +:+ String "/" ("honda-accord-use" +:+ String "d" EmptyString))
  = "honda-accord-use"
  ∧ extract_info_from_csvfilename
      ("data" +:+ String "/" ("honda-accord-use" +:+ String "d" EmptyString))
    = Ret {[ "maker" := PyStr.upper "honda"; "model" := PyStr.upper "accord";
             "condition" := PyStr.upper "use" ]}.
Proof.
  apply (extract_info_path_without_dot "data" "honda-accord-use" "d"
           "honda" "accord" [] "use"); (reflexivity || discriminate).
Defined.



Lemma write_cars_to_csv_again_witness :
  ∃ w2, write_cars_to_csv "/app/model_codes_carscom.csv" csv_header shared_model_rows
          (written "/app/model_codes_carscom.csv" csv_header shared_model_rows bare_world)
        = (Ret tt, w2)
        ∧ files w2
          = files (written "/app/model_codes_carscom.csv" csv_header
                     shared_model_rows bare_world)
        ∧ ∃ evs, trace w2
                 = trace (written "/app/model_codes_carscom.csv" csv_header
                            shared_model_rows bare_world)
                   ++ EvRemove "/app/model_codes_carscom.csv" :: evs.
Proof.
  apply (write_cars_to_csv_again "/app/model_codes_carscom.csv" csv_header
           shared_model_rows bare_world).
  - apply (bool_decide_unpack _). vm_compute. exact Logic.I.
  - vm_compute. reflexivity.
Defined.

Lemma extract_maker_model_codes_without_dataset_witness :
  ∃ w', extract_maker_model_codes "/app/model_codes_carscom.csv" stale_world
        = (Raise FileNotFoundError, w')
        ∧ files w' = files stale_world ∧ trace w' = trace stale_world.
Proof.
  apply (extract_maker_model_codes_without_dataset "/app/model_codes_carscom.csv"
           stale_world).
  vm_compute. reflexivity.
Defined.

Lemma extract_maker_model_codes_rows_well_formed_witness :
  ∃ w' rows,
    extract_maker_model_codes "/app/model_codes_carscom.csv"
      (fresh_world five_makers [] []) = (Ret tt, w')
    ∧ files w' !! "/app/model_codes_carscom.csv" = Some (CsvFile csv_header rows)
    ∧ Forall (λ row : gmap string string,
        dom row = {[ "maker"; "model"; "maker code"; "model code" ]}
        ∧ (∃ name, row !! "maker" = Some name ∧ trimmed name)
        ∧ (∃ name, row !! "model" = Some name ∧ trimmed name)) rows.
Proof.
  apply (extract_maker_model_codes_rows_well_formed "/app/model_codes_carscom.csv"
           (fresh_world five_makers [] []) five_makers).
  - reflexivity.
  - apply five_makers_named.
  - left. reflexivity.
Defined.

Lemma extract_maker_model_codes_locked_destination_witness :
  ∃ w', extract_maker_model_codes "/app/model_codes_carscom.csv"
          locked_world_with_dataset = (SysExit 1, w')
    ∧ files w' = files locked_world_with_dataset
    ∧ trace w' = trace locked_world_with_dataset ++
        [ EvPrint (("error in deleting " +:+ "/app/model_codes_carscom.csv")
                   +:+ PyStr.newline) ].
Proof.
  apply (extract_maker_model_codes_locked_destination "/app/model_codes_carscom.csv"
           locked_world_with_dataset five_makers).
  - vm_compute. reflexivity.
  - apply five_makers_named.
  - eexists. vm_compute. reflexivity.
  - apply (bool_decide_unpack _). vm_compute. exact Logic.I.
Defined.

Lemma build_then_load_brands_witness :
  ∃ w' rows brands pairs,
    extract_maker_model_codes "/app/model_codes_carscom.csv"
      (fresh_world five_makers [] []) = (Ret tt, w')
    ∧ csv_read "/app/model_codes_carscom.csv" w' = (Ret rows, w')
    ∧ load_loop rows ∅ ∅ w' = (Ret (brands, pairs), w')
    ∧ brands = list_to_set
        ((λ maker, PyStr.strip (mk_nm maker)) <$> makers_with_models five_makers).
Proof.
  apply (build_then_load_brands "/app/model_codes_carscom.csv"
           (fresh_world five_makers [] []) five_makers).
  - reflexivity.
  - apply five_makers_named.
  - left. reflexivity.
Defined.

Lemma load_loop_index_within_brands_witness :
  ∃ brands pairs,
    load_loop shared_model_rows ∅ ∅ stale_world = (Ret (brands, pairs), stale_world)
    ∧ (∀ model brand, pairs !! model = Some brand → brand ∈ brands)
    ∧ (∀ line model, line ∈ shared_model_rows → line !! "model" = Some model →
                     is_Some (pairs !! model))
    ∧ size pairs ≤ length shared_model_rows
    ∧ size brands ≤ length shared_model_rows.
Proof.
  apply (load_loop_index_within_brands shared_model_rows stale_world).
  apply (bool_decide_unpack _). vm_compute. exact Logic.I.
Defined.

Lemma build_then_load_index_witness :
  ∃ w' rows brands pairs,
    extract_maker_model_codes "/app/model_codes_carscom.csv"
      (fresh_world five_makers [] []) = (Ret tt, w')
    ∧ csv_read "/app/model_codes_carscom.csv" w' = (Ret rows, w')
    ∧ load_loop rows ∅ ∅ w' = (Ret (brands, pairs), w')
    ∧ pairs !! normalized_model_name (md_nm accord) = Some (PyStr.strip (mk_nm honda)).
Proof.
  apply (build_then_load_index "/app/model_codes_carscom.csv"
           (fresh_world five_makers [] []) five_makers honda accord).
  - reflexivity.
  - apply five_makers_named.
  - left. reflexivity.
  - apply list_elem_of_here.
  - apply list_elem_of_here.
  - assert (Forall (λ maker', Forall (λ model',
              normalized_model_name (md_nm model') = normalized_model_name (md_nm accord) →
              PyStr.strip (mk_nm maker') = PyStr.strip (mk_nm honda)) (mk_md maker'))
              five_makers) as Hall.
    { apply (bool_decide_unpack _). vm_compute. exact Logic.I. }
    intros maker' model' Hmk Hmd.
    rewrite Forall_forall in Hall. specialize (Hall maker' Hmk).
    rewrite Forall_forall in Hall. exact (Hall model' Hmd).
Defined.

Lemma load_loop_missing_column_witness :
  load_loop (shared_model_rows ++ row_without_model :: shared_model_rows) ∅ ∅ stale_world
  = (Raise (KeyError (match row_without_model !! "maker" with
                      | Some _ => "model"
                      | None => "maker"
                      end)), stale_world).
Proof.
  apply (load_loop_missing_column shared_model_rows row_without_model
           shared_model_rows stale_world).
  - apply (bool_decide_unpack _). vm_compute. exact Logic.I.
  - apply (bool_decide_unpack _). vm_compute. exact Logic.I.
Defined.

Lemma guess_car_brand_keeps_files_witness :
  files (guess_car_brand "model_codes_carscom.csv" stale_world).2 = files stale_world
  ∧ locked (guess_car_brand "model_codes_carscom.csv" stale_world).2
    = locked stale_world.
Proof.
  apply (guess_car_brand_keeps_files "model_codes_carscom.csv" stale_world).
  eexists. vm_compute. reflexivity.
Defined.

Lemma guess_car_brand_builds_table_witness :
  files (guess_car_brand "model_codes_carscom.csv"
           (fresh_world five_makers ten_answers [0; 4; 0; 1])).2
  = <[store_path (fresh_world five_makers ten_answers [0; 4; 0; 1]) :=
        CsvFile csv_header (expected_rows five_makers)]>
      (files (fresh_world five_makers ten_answers [0; 4; 0; 1]))
  ∧ ∃ evs, trace (guess_car_brand "model_codes_carscom.csv"
                    (fresh_world five_makers ten_answers [0; 4; 0; 1])).2
           = trace (fresh_world five_makers ten_answers [0; 4; 0; 1])
             ++ EvOpenW (store_path (fresh_world five_makers ten_answers [0; 4; 0; 1]))
                :: evs.
Proof.
  apply (guess_car_brand_builds_table "model_codes_carscom.csv"
           (fresh_world five_makers ten_answers [0; 4; 0; 1]) five_makers).
  - reflexivity.
  - reflexivity.
  - apply five_makers_named.
Defined.

Lemma guess_car_brand_input_runs_out_witness :
  ∃ w' evs,
    guess_car_brand "model_codes_carscom.csv"
      (fresh_world five_makers ["z"; "a"; ""] []) = (Raise EOFError, w')
    ∧ trace w' = trace (fresh_world five_makers ["z"; "a"; ""] []) ++ evs
    ∧ length (answers evs)
      = length (filter valid_line (stdin (fresh_world five_makers ["z"; "a"; ""] [])))
    ∧ length (draws evs)
      = S (length (filter valid_line
                     (stdin (fresh_world five_makers ["z"; "a"; ""] []))))
    ∧ stdin w' = []
    ∧ last evs = Some (EvPrint "> ").
Proof.
  apply (guess_car_brand_input_runs_out "model_codes_carscom.csv"
           (fresh_world five_makers ["z"; "a"; ""] []) (expected_rows five_makers)).
  - apply fresh_world_ready, five_makers_named.
  - apply (bool_decide_unpack _). vm_compute. exact Logic.I.
  - vm_compute. lia.
  - vm_compute. lia.
Defined.

Lemma guess_car_brand_empty_table_witness :
  ∃ w', guess_car_brand "model_codes_carscom.csv" empty_table_world
        = (Raise IndexError, w')
    ∧ draws (trace w') = draws (trace empty_table_world)
    ∧ stdin w' = stdin empty_table_world
    ∧ ∀ h, files empty_table_world !! store_path empty_table_world
           = Some (CsvFile h []) → w' = empty_table_world.
Proof.
  apply (guess_car_brand_empty_table "model_codes_carscom.csv" empty_table_world).
  left. eexists. vm_compute. reflexivity.
Defined.

Lemma guess_car_brand_nothing_to_read_witness :
  guess_car_brand "model_codes_carscom.csv" bare_world
  = (Raise FileNotFoundError, bare_world).
Proof.
  apply (guess_car_brand_nothing_to_read "model_codes_carscom.csv" bare_world);
    reflexivity.
Defined.

Lemma user_input_usage_witness :
  user_input ("utility.py" :: ["Honda"; "Accord"; "53715"]) (λ _, None)
  = ([CliPrint (usage_line "utility.py" +:+ PyStr.newline);
      CliPrint (example_line "utility.py" +:+ PyStr.newline)],
     SysExit 1).
Proof.
  apply (user_input_usage "utility.py" ["Honda"; "Accord"; "53715"] (λ _, None)).
  simpl. lia.
Defined.

Lemma user_input_returns_witness :
  user_input ["utility.py"; "Honda"; "Accord"; pretty 53715%Z; pretty 25%Z;
              "used"; "key.json"; "./data/"] (λ _, None)
  = ([CliMakedirs "./data/"],
     Ret ("Honda", "Accord", 53715%Z, 25%Z, "used", "key.json", "./data/")).
Proof.
  apply (user_input_returns "utility.py" "Honda" "Accord" 53715 25
           "used" "key.json" "./data/" (λ _, None)).
  reflexivity.
Defined.


(** *** The reader of integers, evaluated *)

Example int_literals :
  PyInt.parse " 53715 " = Some 53715%Z ∧ PyInt.parse "+1_000" = Some 1000%Z
  ∧ PyInt.parse "-25" = Some (-25)%Z ∧ PyInt.parse "007" = Some 7%Z
  ∧ PyInt.parse "" = None ∧ PyInt.parse "1__0" = None ∧ PyInt.parse "_1" = None
  ∧ PyInt.parse "1_" = None ∧ PyInt.parse "- 1" = None ∧ PyInt.parse "2.5" = None
  ∧ PyInt.parse "0x10" = None.
Proof. split_and!; vm_compute; reflexivity. Qed.
